(** * ytd: a model of [src/ytd/main.py]

    The development follows the layout of the script: text helpers (the
    [str] methods the script calls), the log adapter, the URL classifier,
    the configuration builder over a store of mutable objects, the two
    download operations and the command entry point with its exit codes.

    Python strings are modelled by [string]; a character stands for the
    code point of the same number (0 to 255). *)

From Stdlib Require Import ZArith Lia Bool Ascii String List.
From stdpp Require Import base option list strings gmap.
Import ListNotations.

Local Open Scope string_scope.
Local Open Scope list_scope.
Local Open Scope Z_scope.
Local Open Scope nat_scope.

(** ** Exceptions and results *)

(** The exception classes the handlers of the [__main__] block tell apart:
    [click.ClickException] (with its [exit_code]), [ValueError],
    [yt_dlp.utils.DownloadError], and every other subclass of [Exception],
    kept with its class name. *)
Inductive exn : Type :=
  | ClickException (exit_code : Z) (message : string)
  | ValueError (message : string)
  | DownloadError (message : string)
  | OtherException (cls : string) (message : string).

Inductive result (A : Type) : Type :=
  | Ok (a : A)
  | Raise (e : exn).
Arguments Ok {A} a.
Arguments Raise {A} e.

(** ** Text helpers: the [str] methods used by the script *)

Module Str.

Definition code (c : ascii) : nat := nat_of_ascii c.

(** [s.startswith(p)] *)
Fixpoint startswith (s p : string) {struct p} : bool :=
  match p, s with
  | EmptyString, _ => true
  | String _ _, EmptyString => false
  | String b p', String a s' => Ascii.eqb a b && startswith s' p'
  end.

(** [s.endswith(suf)]: some tail of [s] is [suf]. *)
Fixpoint endswith (s suf : string) : bool :=
  String.eqb s suf ||
  match s with
  | EmptyString => false
  | String _ s' => endswith s' suf
  end.

(** [s[n:]] *)
Fixpoint drop (n : nat) (s : string) : string :=
  match n, s with
  | O, _ => s
  | S _, EmptyString => EmptyString
  | S n', String _ s' => drop n' s'
  end.

(** [s[:n]] *)
Fixpoint take (n : nat) (s : string) : string :=
  match n, s with
  | O, _ => EmptyString
  | S _, EmptyString => EmptyString
  | S n', String a s' => String a (take n' s')
  end.

(** [s.find(c)] for a one-character [c]; [None] stands for -1. *)
Fixpoint find (c : ascii) (s : string) : option nat :=
  match s with
  | EmptyString => None
  | String a s' =>
      if Ascii.eqb a c then Some 0
      else match find c s' with Some i => Some (S i) | None => None end
  end.

(** [s.rfind(c)] *)
Fixpoint rfind (c : ascii) (s : string) : option nat :=
  match s with
  | EmptyString => None
  | String a s' =>
      match rfind c s' with
      | Some i => Some (S i)
      | None => if Ascii.eqb a c then Some 0 else None
      end
  end.

(** [c in s] *)
Definition contains_char (c : ascii) (s : string) : bool :=
  match find c s with Some _ => true | None => false end.

(** [s.partition(c)]: text before the first [c], whether [c] was found,
    text after it. *)
Definition partition (c : ascii) (s : string) : string * bool * string :=
  match find c s with
  | Some i => (take i s, true, drop (S i) s)
  | None => (s, false, EmptyString)
  end.

(** [s.rpartition(c)]: the same around the last [c]; when [c] is absent
    the whole text is the third component. *)
Definition rpartition (c : ascii) (s : string) : string * bool * string :=
  match rfind c s with
  | Some i => (take i s, true, drop (S i) s)
  | None => (EmptyString, false, s)
  end.

(** [str.isspace] on a single character: the code points below 256 that
    Python counts as white space. *)
Definition isspace (c : ascii) : bool :=
  let n := code c in
  ((9 <=? n) && (n <=? 13)) || ((28 <=? n) && (n <=? 32))
  || (n =? 133) || (n =? 160).

Fixpoint lstrip_with (drop_it : ascii -> bool) (s : string) : string :=
  match s with
  | EmptyString => EmptyString
  | String a s' => if drop_it a then lstrip_with drop_it s' else s
  end.

Fixpoint rstrip_with (drop_it : ascii -> bool) (s : string) : string :=
  match s with
  | EmptyString => EmptyString
  | String a s' =>
      match rstrip_with drop_it s' with
      | EmptyString => if drop_it a then EmptyString else String a EmptyString
      | r => String a r
      end
  end.

(** [s.strip()] *)
Definition strip (s : string) : string :=
  rstrip_with isspace (lstrip_with isspace s).

(** [s.replace(old, '', 1)]: the first occurrence of [old] is removed,
    wherever it stands; [old] is not empty at any call of the script. *)
Fixpoint remove_first (old s : string) : string :=
  if startswith s old then drop (String.length old) s
  else match s with
       | EmptyString => EmptyString
       | String a s' => String a (remove_first old s')
       end.

(** [s.find(old)]: where the first occurrence of [old] starts. *)
Fixpoint find_str (old s : string) : option nat :=
  if startswith s old then Some 0
  else match s with
       | EmptyString => None
       | String _ s' => S <$> find_str old s'
       end.

(** [old in s] *)
Fixpoint contains (s old : string) : bool :=
  startswith s old ||
  match s with
  | EmptyString => false
  | String _ s' => contains s' old
  end.

(** [s.replace(c, '')] for a one-character [c]: every occurrence goes. *)
Fixpoint remove_char (c : ascii) (s : string) : string :=
  match s with
  | EmptyString => EmptyString
  | String a s' =>
      if Ascii.eqb a c then remove_char c s' else String a (remove_char c s')
  end.

Definition is_upper (n : nat) : bool :=
  ((65 <=? n) && (n <=? 90))
  || ((192 <=? n) && (n <=? 222) && negb (n =? 215)).

Definition lower_char (c : ascii) : ascii :=
  if is_upper (code c) then ascii_of_nat (code c + 32) else c.

(** [s.lower()] *)
Fixpoint lower (s : string) : string :=
  match s with
  | EmptyString => EmptyString
  | String a s' => String (lower_char a) (lower s')
  end.

Definition is_ascii_alpha (c : ascii) : bool :=
  let n := code c in
  ((65 <=? n) && (n <=? 90)) || ((97 <=? n) && (n <=? 122)).

Definition is_digit (c : ascii) : bool :=
  let n := code c in (48 <=? n) && (n <=? 57).

Fixpoint all_chars (p : ascii -> bool) (s : string) : bool :=
  match s with
  | EmptyString => true
  | String a s' => p a && all_chars p s'
  end.

(** The one-character text made of the double quote (code 34). *)
Definition dquote : string := String (ascii_of_nat 34) EmptyString.

End Str.

(** ** The URL parser the classifier calls

    [urllib.parse.urlparse] is a function of the Python library, not of
    this script. The classifier reads two things off its result: the
    [hostname] property ([None] or a text) and the [path] field; the call
    itself may raise [ValueError]. The classifier is stated over this
    interface, so every theorem on it holds whatever the parser returns. *)

Record ParseResult : Type := mkParseResult {
  scheme : string;
  netloc : string;
  path : string;
  params : string;
  query : string;
  fragment : string;
  hostname : option string
}.

Class UrlLib : Type := { urlparse : string -> result ParseResult }.

(** [x or ''] on an optional text: [None] and the empty text both give the
    empty text. *)
Definition or_empty (x : option string) : string :=
  match x with
  | Some s => s
  | None => EmptyString
  end.

(** ** URL classifier (lines 198-242) *)

(** [ensure_scheme]: [url.startswith(('http://', 'https://'))]. *)
Definition has_scheme (url : string) : bool :=
  existsb (Str.startswith url) ["http://"; "https://"].

Definition ensure_scheme (url : string) : string :=
  if negb (has_scheme url) then "https://" +:+ url else url.

Definition valid_domains : list string := ["youtube.com"; "youtu.be"].

Section Classifier.
Context {U : UrlLib}.

Definition is_youtube_url (url : string) : result bool :=
  let url := ensure_scheme url in
  match urlparse url with
  | Raise e => Raise e
  | Ok parsed =>
      let host := or_empty (hostname parsed) in
      Ok (existsb
            (fun domain =>
               String.eqb host domain || Str.endswith host ("." +:+ domain))
            valid_domains)
  end.

Definition is_single_video (url : string) : result bool :=
  let url := ensure_scheme url in
  match urlparse url with
  | Raise e => Raise e
  | Ok parsed =>
      let host := or_empty (hostname parsed) in
      let path := path parsed in
      if existsb (String.eqb host) ["youtu.be"; "www.youtu.be"] then Ok true
      else if existsb (Str.startswith path) ["/watch"; "/shorts/"; "/live/"]
      then Ok true
      else if Str.startswith path "/playlist" then Ok false
      else Raise (ValueError
                    ("Unsupported or invalid YouTube URL structure: "
                     +:+ Str.dquote +:+ url +:+ Str.dquote))
  end.

End Classifier.

(** ** A model of CPython's [urllib.parse.urlparse]

    Used for the concrete URLs of the examples. It follows [urlsplit],
    [_splitnetloc], [_splitparams] and the [hostname] property of the
    library step by step. Two checks of the library are outside it: the
    NFKC test of [_checknetloc], which never fires on code points below
    256, and the validation of the text between brackets as an IP literal,
    which only recent versions perform; no example has a bracket. *)

Module Urllib.

Definition colon : ascii := ascii_of_nat 58.
Definition slash : ascii := ascii_of_nat 47.
Definition question : ascii := ascii_of_nat 63.
Definition hash : ascii := ascii_of_nat 35.
Definition semicolon : ascii := ascii_of_nat 59.
Definition at_sign : ascii := ascii_of_nat 64.
Definition open_bracket : ascii := ascii_of_nat 91.
Definition close_bracket : ascii := ascii_of_nat 93.
Definition percent : ascii := ascii_of_nat 37.

(** [_WHATWG_C0_CONTROL_OR_SPACE]: the code points 0 to 32. *)
Definition c0_control_or_space (c : ascii) : bool := Str.code c <=? 32.

(** [_UNSAFE_URL_BYTES_TO_REMOVE]: tab, carriage return, line feed. *)
Definition remove_unsafe (url : string) : string :=
  Str.remove_char (ascii_of_nat 10)
    (Str.remove_char (ascii_of_nat 13)
       (Str.remove_char (ascii_of_nat 9) url)).

(** [scheme_chars]: letters, digits, [+], [-], [.]. *)
Definition scheme_char (c : ascii) : bool :=
  Str.is_ascii_alpha c || Str.is_digit c
  || (Str.code c =? 43) || (Str.code c =? 45) || (Str.code c =? 46).

(** Index of the first of [/], [?], [#]. *)
Fixpoint find_delim (s : string) : option nat :=
  match s with
  | EmptyString => None
  | String a s' =>
      if Ascii.eqb a slash || Ascii.eqb a question || Ascii.eqb a hash
      then Some 0
      else match find_delim s' with Some i => Some (S i) | None => None end
  end.

(** [_splitnetloc(url, 2)] *)
Definition splitnetloc (url : string) : string * string :=
  let rest := Str.drop 2 url in
  match find_delim rest with
  | Some i => (Str.take i rest, Str.drop i rest)
  | None => (rest, EmptyString)
  end.

Record SplitResult : Type := mkSplitResult {
  s_scheme : string;
  s_netloc : string;
  s_path : string;
  s_query : string;
  s_fragment : string
}.

Definition split_scheme (url : string) : string * string :=
  match Str.find colon url, url with
  | Some (S i), String a _ =>
      if Str.is_ascii_alpha a && Str.all_chars scheme_char (Str.take (S i) url)
      then (Str.lower (Str.take (S i) url), Str.drop (S (S i)) url)
      else (EmptyString, url)
  | _, _ => (EmptyString, url)
  end.

Definition urlsplit (url : string) : result SplitResult :=
  let url := Str.lstrip_with c0_control_or_space url in
  let url := remove_unsafe url in
  let '(scheme, url) := split_scheme url in
  let '(netloc, url) :=
    if Str.startswith url "//" then splitnetloc url else (EmptyString, url) in
  if xorb (Str.contains_char open_bracket netloc)
          (Str.contains_char close_bracket netloc)
  then Raise (ValueError "Invalid IPv6 URL")
  else
    let '(url, fragment) :=
      let '(before, _, after) := Str.partition hash url in (before, after) in
    let '(url, query) :=
      let '(before, _, after) := Str.partition question url in (before, after) in
    Ok (mkSplitResult scheme netloc url query fragment).

Definition uses_params : list string :=
  [EmptyString; "ftp"; "hdl"; "prospero"; "http"; "imap"; "https"; "shttp";
   "rtsp"; "rtsps"; "rtspu"; "sip"; "sips"; "mms"; "sftp"; "tel"].

(** [_splitparams]: the first [;] of the last path segment. *)
Definition splitparams (url : string) : string * string :=
  match Str.rfind slash url with
  | Some j =>
      match Str.find semicolon (Str.drop j url) with
      | Some i => (Str.take (j + i) url, Str.drop (S (j + i)) url)
      | None => (url, EmptyString)
      end
  | None =>
      match Str.find semicolon url with
      | Some i => (Str.take i url, Str.drop (S i) url)
      | None => (url, EmptyString)
      end
  end.

(** The [hostname] property, through [_hostinfo]. *)
Definition hostname_of (netloc : string) : option string :=
  let '(_, _, hostinfo) := Str.rpartition at_sign netloc in
  let '(_, have_open_br, bracketed) := Str.partition open_bracket hostinfo in
  let host :=
    if have_open_br
    then let '(h, _, _) := Str.partition close_bracket bracketed in h
    else let '(h, _, _) := Str.partition colon hostinfo in h in
  match host with
  | EmptyString => None
  | _ =>
      let '(h, sep, zone) := Str.partition percent host in
      Some (Str.lower h +:+ (if sep then String percent EmptyString
                             else EmptyString) +:+ zone)
  end.

Definition urlparse (url : string) : result ParseResult :=
  match urlsplit url with
  | Raise e => Raise e
  | Ok r =>
      let '(url, params) :=
        if existsb (String.eqb (s_scheme r)) uses_params
           && Str.contains_char semicolon (s_path r)
        then splitparams (s_path r)
        else (s_path r, EmptyString) in
      Ok (mkParseResult (s_scheme r) (s_netloc r) url params (s_query r)
            (s_fragment r) (hostname_of (s_netloc r)))
  end.

End Urllib.

#[export] Instance cpython : UrlLib := {| urlparse := Urllib.urlparse |}.

(** ** Log adapter (lines 16-57)

    The adapter hands each line to one method of its structlog logger, with
    an event name and the keyword [detail]. The calls received by the
    logger are collected in a list, oldest first. *)

Inductive level : Type := DEBUG | INFO | WARNING | ERROR | EXCEPTION.

Record log_event : Type := mkEvent {
  ev_level : level;
  ev_name : string;
  ev_fields : list (string * string)
}.

Definition is_empty (s : string) : bool :=
  match s with
  | EmptyString => true
  | String _ _ => false
  end.

Module YtDlpStructlogAdapter.

Definition debug (msg : string) (sink : list log_event) : list log_event :=
  if is_empty (Str.strip msg) then sink
  else if Str.startswith msg "[debug]" then
    let clean_msg := Str.strip (Str.remove_first "[debug]" msg) in
    sink ++ [mkEvent DEBUG "yt_dlp_debug" [("detail", clean_msg)]]
  else sink ++ [mkEvent INFO "yt_dlp_info" [("detail", Str.strip msg)]].

Definition warning (msg : string) (sink : list log_event) : list log_event :=
  if is_empty (Str.strip msg) then sink
  else
    let clean_msg := Str.strip (Str.remove_first "WARNING:" msg) in
    sink ++ [mkEvent WARNING "yt_dlp_warning" [("detail", clean_msg)]].

Definition error (msg : string) (sink : list log_event) : list log_event :=
  if is_empty (Str.strip msg) then sink
  else
    let clean_msg := Str.strip (Str.remove_first "ERROR:" msg) in
    sink ++ [mkEvent ERROR "yt_dlp_error" [("detail", clean_msg)]].

End YtDlpStructlogAdapter.

(** ** The store of mutable objects

    Dictionaries, lists, sets and class instances are objects with an
    identity: a value refers to one by its address in the store, two
    references to one address are aliases, and an assignment through one
    is seen through the other. Atomic values carry no identity. *)

Definition addr : Type := nat.

Inductive value : Type :=
  | VNone
  | VBool (b : bool)
  | VInt (n : Z)
  | VStr (s : string)
  | VRef (a : addr).

(** A dictionary keeps its items in insertion order, keys without repeats. *)
Inductive object : Type :=
  | ODict (items : list (string * value))
  | OList (elems : list value)
  | OSet (elems : list string)
  | OInstance (cls : string) (attrs : list (string * value)).

(** What the script asks of the download engine, in the order asked. *)
Inductive engine_call : Type :=
  | ExtractInfo (ydl : value) (url : string)
  | Download (ydl : value) (urls : list string).

Record world : Type := mkWorld {
  heap : list object;
  calls : list engine_call;
  log : list log_event
}.

Definition with_heap (h : list object) (w : world) : world :=
  mkWorld h (calls w) (log w).

(** Computations read and change the world and end with a value or a
    raised exception; what was changed before a raise stays changed. *)
Definition M (A : Type) : Type := world -> result A * world.

Definition ret {A} (a : A) : M A := fun w => (Ok a, w).

Definition raise {A} (e : exn) : M A := fun w => (Raise e, w).

Definition bind {A B} (m : M A) (k : A -> M B) : M B :=
  fun w =>
    match m w with
    | (Ok a, w') => k a w'
    | (Raise e, w') => (Raise e, w')
    end.

Definition lift {A} (r : result A) : M A := fun w => (r, w).

Declare Scope py_scope.
Delimit Scope py_scope with py.
Notation "x <- m ;; k" := (bind m (fun x => k))
  (at level 100, m at next level, right associativity) : py_scope.
Notation "m ;; k" := (bind m (fun _ => k))
  (at level 100, right associativity) : py_scope.
Local Open Scope py_scope.

(** A call of a method of the module's structlog logger. *)
Definition log_call (l : level) (event : string)
    (fields : list (string * string)) : M unit :=
  fun w => (Ok tt, mkWorld (heap w) (calls w) (log w ++ [mkEvent l event fields])).

(** *** Dictionary items *)

Fixpoint dict_get (k : string) (items : list (string * value)) : option value :=
  match items with
  | [] => None
  | (k', v) :: rest => if String.eqb k' k then Some v else dict_get k rest
  end.

(** [d[k] = v]: the value of an existing key is replaced in place, a new
    key goes to the end. *)
Fixpoint dict_set (k : string) (v : value) (items : list (string * value))
    : list (string * value) :=
  match items with
  | [] => [(k, v)]
  | (k', v') :: rest =>
      if String.eqb k' k then (k, v) :: rest else (k', v') :: dict_set k v rest
  end.

(** *** Operations on the store *)

(** A new object: its address is the next free one. *)
Definition alloc (o : object) : M addr :=
  fun w => (Ok (length (heap w)), with_heap (heap w ++ [o]) w).

Definition new (o : object) : M value :=
  fun w => (Ok (VRef (length (heap w))), with_heap (heap w ++ [o]) w).

Definition type_error {A} (message : string) : M A :=
  raise (OtherException "TypeError" message).

(** The object a value refers to. An atomic value has none, and the
    operations below raise [TypeError] on it as Python does. *)
Definition load (x : value) : M (addr * object) :=
  fun w =>
    match x with
    | VRef a =>
        match heap w !! a with
        | Some o => (Ok (a, o), w)
        | None => (Raise (OtherException "SystemError" "dangling reference"), w)
        end
    | _ => (Raise (OtherException "TypeError" "not a container"), w)
    end.

Definition store (a : addr) (o : object) : M unit :=
  fun w => (Ok tt, with_heap (<[a := o]> (heap w)) w).

(** [d[k]] *)
Definition getitem (d : value) (k : string) : M value :=
  r <- load d ;;
  match r with
  | (_, ODict items) =>
      match dict_get k items with
      | Some v => ret v
      | None => raise (OtherException "KeyError" k)
      end
  | _ => type_error "indices must be integers"
  end.

(** [d[k] = v] *)
Definition setitem (d : value) (k : string) (v : value) : M unit :=
  r <- load d ;;
  match r with
  | (a, ODict items) => store a (ODict (dict_set k v items))
  | _ => type_error "indices must be integers"
  end.

(** [l.append(v)] *)
Definition append (l : value) (v : value) : M unit :=
  r <- load l ;;
  match r with
  | (a, OList elems) => store a (OList (elems ++ [v]))
  | _ => raise (OtherException "AttributeError" "append")
  end.

(** [setattr(x, k, v)] on a class instance. *)
Definition setattr (x : value) (k : string) (v : value) : M unit :=
  r <- load x ;;
  match r with
  | (a, OInstance cls attrs) => store a (OInstance cls (dict_set k v attrs))
  | _ => raise (OtherException "AttributeError" k)
  end.

(** ** Configuration builder (lines 126-195)

    Every container of the literal is a new object, created in the order
    Python evaluates the literal: the nested ones first, the outer
    dictionary last. *)

Definition format_selector : string :=
  "bestvideo+bestaudio[language^=ru]+bestaudio[language^=en]/"
  +:+ "bestvideo+bestaudio[language^=ru]/"
  +:+ "bestvideo+bestaudio[language^=en]/"
  +:+ "bestvideo+bestaudio/best".

Definition user_agent : string :=
  "Mozilla/5.0 (iPhone17,5; CPU iPhone OS 18_3_2 like Mac OS X) "
  +:+ "AppleWebKit/605.1.15 (KHTML, like Gecko) Mobile/15E148 FireKeepers/1.7.0".

Definition get_base_ydl_params (custom_logger : value) : M value :=
  compat_opts <- new (OSet ["no-certifi"]) ;;
  outtmpl <- new (ODict [("default", VStr ""); ("pl_thumbnail", VStr "")]) ;;
  pp_subtitle <- new (ODict [("already_have_subtitle", VBool false);
                             ("key", VStr "FFmpegEmbedSubtitle")]) ;;
  pp_metadata <- new (ODict [("add_chapters", VBool true);
                             ("add_infojson", VStr "if_exists");
                             ("add_metadata", VBool true);
                             ("key", VStr "FFmpegMetadata")]) ;;
  pp_thumbnail <- new (ODict [("already_have_thumbnail", VBool false);
                              ("key", VStr "EmbedThumbnail")]) ;;
  pp_concat <- new (ODict [("key", VStr "FFmpegConcat");
                           ("only_multi_video", VBool true);
                           ("when", VStr "playlist")]) ;;
  postprocessors <- new (OList [pp_subtitle; pp_metadata; pp_thumbnail; pp_concat]) ;;
  subtitleslangs <- new (OList [VStr "ru"; VStr "en"]) ;;
  http_headers <- new (ODict [("User-Agent", VStr user_agent)]) ;;
  remote_components <- new (OList [VStr "ejs:github"]) ;;
  adapter <- new (OInstance "YtDlpStructlogAdapter" [("logger", custom_logger)]) ;;
  new (ODict [
    ("allow_multiple_audio_streams", VBool true);
    ("compat_opts", compat_opts);
    ("extract_flat", VStr "discard_in_playlist");
    ("format", VStr format_selector);
    ("ignoreerrors", VStr "only_download");
    ("outtmpl", outtmpl);
    ("postprocessors", postprocessors);
    ("subtitleslangs", subtitleslangs);
    ("updatetime", VBool true);
    ("warn_when_outdated", VBool true);
    ("windowsfilenames", VBool true);
    ("writesubtitles", VBool true);
    ("writethumbnail", VBool true);
    ("merge_output_format", VStr "mkv/mp4");
    ("http_headers", http_headers);
    ("continuedl", VBool true);
    ("retries", VInt 15);
    ("fragment_retries", VInt 15);
    ("skip_unavailable_fragments", VBool false);
    ("retry_sleep", VInt 5);
    ("remote_components", remote_components);
    ("embeddescription", VBool true);
    ("noprogress", VBool true);
    ("logger", adapter)
  ]).

(** ** [copy.deepcopy]

    An atomic value is returned as it is. A container is copied into a new
    object, entered in the memo before its contents are copied, so that an
    object met twice is copied once. Each nesting level costs interpreter
    frames; [fuel] counts the levels left, and running out raises
    [RecursionError] as CPython does on its recursion limit. *)

Definition memo_get (a : addr) (memo : list (addr * addr)) : option addr :=
  snd <$> List.find (fun p => Nat.eqb (fst p) a) memo.

(** Copy the values of [items] one by one with [cp], handing each copy with
    its key to [put]. *)
Fixpoint copy_each {K : Type}
    (cp : value -> list (addr * addr) -> M (value * list (addr * addr)))
    (put : K -> value -> M unit)
    (items : list (K * value)) (memo : list (addr * addr))
    : M (list (addr * addr)) :=
  match items with
  | [] => ret memo
  | (k, v) :: rest =>
      r <- cp v memo ;;
      put k (fst r) ;;
      copy_each cp put rest (snd r)
  end.

Fixpoint deepcopy_rec (fuel : nat) (x : value) (memo : list (addr * addr))
    : M (value * list (addr * addr)) :=
  match x with
  | VRef a =>
      match memo_get a memo with
      | Some y => ret (VRef y, memo)
      | None =>
          match fuel with
          | O => raise (OtherException "RecursionError"
                          "maximum recursion depth exceeded")
          | S fuel' =>
              r <- load x ;;
              match snd r with
              | ODict items =>
                  y <- alloc (ODict []) ;;
                  memo' <- copy_each (deepcopy_rec fuel') (setitem (VRef y))
                             items ((a, y) :: memo) ;;
                  ret (VRef y, memo')
              | OList elems =>
                  y <- alloc (OList []) ;;
                  memo' <- copy_each (deepcopy_rec fuel')
                             (fun _ : unit => append (VRef y))
                             (map (pair tt) elems) ((a, y) :: memo) ;;
                  ret (VRef y, memo')
              | OSet elems =>
                  y <- alloc (OSet elems) ;;
                  ret (VRef y, (a, y) :: memo)
              | OInstance cls attrs =>
                  y <- alloc (OInstance cls []) ;;
                  memo' <- copy_each (deepcopy_rec fuel') (setattr (VRef y))
                             attrs ((a, y) :: memo) ;;
                  ret (VRef y, memo')
              end
          end
      end
  | _ => ret (x, memo)
  end.

(** The nesting depth [deepcopy] can reach under CPython's default limit of
    1000 frames, at two frames a level and with the frames of the command
    line layer below. *)
Definition recursion_depth : nat := 400.

Definition deepcopy (x : value) : M value :=
  r <- deepcopy_rec recursion_depth x [] ;;
  ret (fst r).

(** ** The download engine

    [yt_dlp.YoutubeDL] is outside the script. A session is identified with
    the parameter object it was opened on ([ydl.params] is that object).
    Its two operations answer from the store, the session and the URL; an
    answer is a value or a raised exception; what the engine does to the
    objects of its own session is its business and is not modelled. The
    metadata of [extract_info] maps a field name to [None] or a text. *)

Class Engine : Type := {
  ydl_extract_info :
    list object -> value -> string -> result (option (gmap string (option string)));
  ydl_download : list object -> value -> list string -> result unit
}.

Definition output_template_playlist : string :=
  "%(channel)s - %(playlist_title)s/%(playlist_index)03d - %(title)s.%(ext)s".

(** [a or b] on the result of [info.get]: an absent key, [None] and the
    empty text are all false. *)
Definition get_or (x : option (option string)) (otherwise : string) : string :=
  match x with
  | Some (Some s) => if is_empty s then otherwise else s
  | _ => otherwise
  end.

(** Lines 262-272 of [download_single_video]. *)
Definition derive_author (info : gmap string (option string)) : string :=
  let author :=
    get_or (info !! "channel")
      (get_or (info !! "uploader")
         (get_or (info !! "creator")
            (get_or (info !! "uploader_id") "Unknown Author"))) in
  if Str.startswith author "@" then Str.drop 1 author else author.

Section Orchestrator.
Context {E : Engine}.

Definition extract_info (ydl : value) (url : string)
    : M (option (gmap string (option string))) :=
  fun w =>
    (ydl_extract_info (heap w) ydl url,
     mkWorld (heap w) (calls w ++ [ExtractInfo ydl url]) (log w)).

Definition download (ydl : value) (urls : list string) : M unit :=
  fun w =>
    (ydl_download (heap w) ydl urls,
     mkWorld (heap w) (calls w ++ [Download ydl urls]) (log w)).

Definition download_single_video (url : string) (params : value)
    (cookies : string) : M unit :=
  local_params <- deepcopy params ;;
  (if negb (is_empty cookies)
   then setitem local_params "cookiefile" (VStr cookies)
   else ret tt) ;;
  let ydl := local_params in
  r <- extract_info ydl url ;;
  let info := default ∅ r in
  let author := derive_author info in
  outtmpl <- getitem ydl "outtmpl" ;;
  setitem outtmpl "default" (VStr (author +:+ " - %(title)s.%(ext)s")) ;;
  download ydl [url].

Definition download_playlist (url : string) (params : value)
    (cookies : string) : M unit :=
  local_params <- deepcopy params ;;
  outtmpl <- getitem local_params "outtmpl" ;;
  setitem outtmpl "default" (VStr output_template_playlist) ;;
  (if negb (is_empty cookies)
   then setitem local_params "cookiefile" (VStr cookies)
   else ret tt) ;;
  let ydl := local_params in
  download ydl [url].

End Orchestrator.

(** ** Command entry point (lines 295-338) *)

(** The module's logger, created at import time: the first object of the
    store. *)
Definition logger : value := VRef 0.

Definition initial_world : world :=
  mkWorld [OInstance "BoundLoggerLazyProxy" []] [] [].

(** What [app(standalone_mode=False)] does with the process arguments is
    click's: either it raises a [ClickException] without calling [main], or
    it calls [main] with the URL and the cookies option (empty when not
    given). *)
Inductive invocation : Type :=
  | UsageFailure (exit_code : Z) (message : string)
  | Invoke (url cookies : string).

(** The text [str(e)] of an exception. *)
Definition exn_text (e : exn) : string :=
  match e with
  | ClickException _ m | ValueError m | DownloadError m
  | OtherException _ m => m
  end.

Section EntryPoint.
Context {U : UrlLib} {E : Engine}.

Definition main (url cookies : string) : M unit :=
  ok <- lift (is_youtube_url url) ;;
  if negb ok then
    log_call ERROR "invalid_url" [("url", url)] ;;
    raise (ValueError ("Not a valid YouTube URL: "
                       +:+ Str.dquote +:+ url +:+ Str.dquote))
  else
    base_params <- get_base_ydl_params logger ;;
    single <- lift (is_single_video url) ;;
    if single then
      log_call INFO "downloading_single_video" [("url", url)] ;;
      download_single_video url base_params cookies
    else
      log_call INFO "downloading_playlist" [("url", url)] ;;
      download_playlist url base_params cookies.

Definition app (argv : invocation) : M unit :=
  match argv with
  | UsageFailure code message => raise (ClickException code message)
  | Invoke url cookies => main url cookies
  end.

(** The handlers of the [__main__] block: the event logged for a raised
    exception and the code given to [SystemExit]. *)
Definition handle (e : exn) : level * string * Z :=
  match e with
  | ClickException code _ => (ERROR, "cli_error", code)
  | ValueError _ => (ERROR, "validation_error", 3%Z)
  | DownloadError _ => (ERROR, "download_error", 2%Z)
  | OtherException _ _ => (EXCEPTION, "unhandled_exception", 1%Z)
  end.

(** The [__main__] block: the exit code of the process and the world it
    leaves. A run that raises nothing ends with code 0. *)
Definition run (argv : invocation) (w : world) : Z * world :=
  let w := snd (log_call INFO "application_started" [] w) in
  match app argv w with
  | (Ok _, w') => (0%Z, w')
  | (Raise e, w') =>
      let '(l, event, code) := handle e in
      (code, snd (log_call l event [("error", exn_text e)] w'))
  end.

End EntryPoint.

(** * Vocabulary of the statements

    Names for the tests, messages and worlds the properties speak about,
    and the notions of the isolation argument. *)

(** The test of line 219 on a host. *)
Definition host_matches (host : string) : bool :=
  existsb
    (fun domain => String.eqb host domain || Str.endswith host ("." +:+ domain))
    valid_domains.

(** The hosts of line 232 and the path prefixes of line 236. *)
Definition short_link_hosts : list string := ["youtu.be"; "www.youtu.be"].

Definition single_prefixes : list string := ["/watch"; "/shorts/"; "/live/"].

(** The exception of line 242. *)
Definition structure_error (url : string) : exn :=
  ValueError ("Unsupported or invalid YouTube URL structure: "
              +:+ Str.dquote +:+ url +:+ Str.dquote).

(** The detail the specification words promise: only a marker that leads
    the line is cut. *)
Definition detail_leading_marker_only (marker msg : string) : string :=
  Str.strip (if Str.startswith msg marker
             then Str.drop (String.length marker) msg else msg).

(** The metadata fields of lines 263-266, in the order tried. *)
Definition author_fields : list string :=
  ["channel"; "uploader"; "creator"; "uploader_id"].

(** A metadata field that is absent, [None] or the empty text. *)
Definition field_empty (info : gmap string (option string)) (k : string) : Prop :=
  info !! k = None \/ info !! k = Some None \/ info !! k = Some (Some EmptyString).

(** The label before the leading [@] is looked at. *)
Definition first_author (info : gmap string (option string)) : string :=
  get_or (info !! "channel")
    (get_or (info !! "uploader")
       (get_or (info !! "creator")
          (get_or (info !! "uploader_id") "Unknown Author"))).

(** Relative to a boundary [n], an address is old when it is below [n]
    and new otherwise. A value is [fresh] when it refers to no old
    object; an object is, when the values it holds are. *)
Definition fresh (n : nat) (v : value) : Prop :=
  match v with
  | VRef a => n <= a
  | _ => True
  end.

Definition obj_fresh (n : nat) (o : object) : Prop :=
  match o with
  | ODict items | OInstance _ items => Forall (fun kv => fresh n (snd kv)) items
  | OList elems => Forall (fresh n) elems
  | OSet _ => True
  end.

(** The new objects are closed: none of them refers to an old one. *)
Definition closed_above (n : nat) (w : world) : Prop :=
  n <= length (heap w)
  /\ forall a o, n <= a -> heap w !! a = Some o -> obj_fresh n o.

(** From [w] to [w'] the store only grew and no old object changed. *)
Definition frame (n : nat) (w w' : world) : Prop :=
  length (heap w) <= length (heap w')
  /\ forall a, a < n -> heap w' !! a = heap w !! a.

(** [respects n m Q]: from a world closed above [n], [m] changes nothing
    below [n], leaves the world closed above [n], and a returned value
    satisfies [Q]. *)
Definition respects {A} (n : nat) (m : M A) (Q : A -> Prop) : Prop :=
  forall w, closed_above n w ->
    frame n w (snd (m w)) /\ closed_above n (snd (m w))
    /\ forall a, fst (m w) = Ok a -> Q a.

(** The memo of [deepcopy] maps to new objects only. *)
Definition memo_fresh (n : nat) (memo : list (addr * addr)) : Prop :=
  Forall (fun p => n <= snd p) memo.

(** The objects one call of the builder adds to a store of [n] objects. *)
Definition base_objects (n : nat) (custom_logger : value) : list object :=
  [ OSet ["no-certifi"];
    ODict [("default", VStr ""); ("pl_thumbnail", VStr "")];
    ODict [("already_have_subtitle", VBool false);
           ("key", VStr "FFmpegEmbedSubtitle")];
    ODict [("add_chapters", VBool true); ("add_infojson", VStr "if_exists");
           ("add_metadata", VBool true); ("key", VStr "FFmpegMetadata")];
    ODict [("already_have_thumbnail", VBool false);
           ("key", VStr "EmbedThumbnail")];
    ODict [("key", VStr "FFmpegConcat"); ("only_multi_video", VBool true);
           ("when", VStr "playlist")];
    OList [VRef (n + 2); VRef (n + 3); VRef (n + 4); VRef (n + 5)];
    OList [VStr "ru"; VStr "en"];
    ODict [("User-Agent", VStr user_agent)];
    OList [VStr "ejs:github"];
    OInstance "YtDlpStructlogAdapter" [("logger", custom_logger)];
    ODict [
      ("allow_multiple_audio_streams", VBool true);
      ("compat_opts", VRef n);
      ("extract_flat", VStr "discard_in_playlist");
      ("format", VStr format_selector);
      ("ignoreerrors", VStr "only_download");
      ("outtmpl", VRef (n + 1));
      ("postprocessors", VRef (n + 6));
      ("subtitleslangs", VRef (n + 7));
      ("updatetime", VBool true);
      ("warn_when_outdated", VBool true);
      ("windowsfilenames", VBool true);
      ("writesubtitles", VBool true);
      ("writethumbnail", VBool true);
      ("merge_output_format", VStr "mkv/mp4");
      ("http_headers", VRef (n + 8));
      ("continuedl", VBool true);
      ("retries", VInt 15);
      ("fragment_retries", VInt 15);
      ("skip_unavailable_fragments", VBool false);
      ("retry_sleep", VInt 5);
      ("remote_components", VRef (n + 9));
      ("embeddescription", VBool true);
      ("noprogress", VBool true);
      ("logger", VRef (n + 10)) ] ].

(** Equality of atomic values, identity of references. *)
Definition value_eqb (v v' : value) : bool :=
  match v, v' with
  | VNone, VNone => true
  | VBool b, VBool b' => Bool.eqb b b'
  | VInt n, VInt n' => Z.eqb n n'
  | VStr s, VStr s' => String.eqb s s'
  | VRef a, VRef a' => Nat.eqb a a'
  | _, _ => false
  end.

Fixpoint forall2b {A} (p : A -> A -> bool) (l l' : list A) : bool :=
  match l, l' with
  | [], [] => true
  | x :: r, x' :: r' => p x x' && forall2b p r r'
  | _, _ => false
  end.

(** [copy_of fuel h v v']: [v'] is a deep copy of [v] in the store [h]: the
    same atomic value, or a reference to another object of the same kind
    whose contents are deep copies in turn, key by key and in the same
    order. *)
Fixpoint copy_of (fuel : nat) (h : list object) (v v' : value) : bool :=
  match v, v' with
  | VRef a, VRef a' =>
      negb (Nat.eqb a a') &&
      match fuel with
      | O => false
      | S fuel' =>
          let items_copy :=
            forall2b (fun kv kv' : string * value =>
                        String.eqb (fst kv) (fst kv')
                        && copy_of fuel' h (snd kv) (snd kv')) in
          match h !! a, h !! a' with
          | Some (ODict items), Some (ODict items') => items_copy items items'
          | Some (OList elems), Some (OList elems') =>
              forall2b (copy_of fuel' h) elems elems'
          | Some (OSet elems), Some (OSet elems') =>
              forall2b String.eqb elems elems'
          | Some (OInstance cls attrs), Some (OInstance cls' attrs') =>
              String.eqb cls cls' && items_copy attrs attrs'
          | _, _ => false
          end
      end
  | _, _ => value_eqb v v'
  end.

(** The world in which [main] calls the builder: the store of the process,
    whatever was asked of the engine and logged so far. *)
Definition process_world (c : list engine_call) (l : list log_event) : world :=
  mkWorld (heap initial_world) c l.

(** An engine that reports the channel [@] for every URL and downloads
    without complaint. *)
Definition engine_channel_at : Engine :=
  {| ydl_extract_info := fun _ _ _ => Ok (Some {[ "channel" := Some "@" ]});
     ydl_download := fun _ _ _ => Ok tt |}.

(** The world once the [__main__] block has logged its start. *)
Definition started (w : world) : world :=
  snd (log_call INFO "application_started" [] w).

(** The code of the [SystemExit] each handler raises; 0 without exception. *)
Definition exit_code_for {A} (r : result A) : Z :=
  match r with
  | Ok _ => 0%Z
  | Raise (ClickException code _) => code
  | Raise (ValueError _) => 3%Z
  | Raise (DownloadError _) => 2%Z
  | Raise (OtherException _ _) => 1%Z
  end.

(** The exception of line 311. *)
Definition not_youtube_error (url : string) : exn :=
  ValueError ("Not a valid YouTube URL: " +:+ Str.dquote +:+ url +:+ Str.dquote).

(** An engine whose download fails. *)
Definition engine_download_fails : Engine :=
  {| ydl_extract_info := fun _ _ _ => Ok None;
     ydl_download := fun _ _ _ => Raise (DownloadError "network") |}.

(** A URL carries a network scheme, as the parser the script calls reads
    it, when a scheme name (a letter, then letters, digits, [+], [-],
    [.]) is followed by [://]. *)
Definition carries_scheme (url : string) : bool :=
  let '(scheme, rest) := Urllib.split_scheme url in
  negb (is_empty scheme) && Str.startswith rest "//".

(** ** Vocabulary of the further properties *)

(** What the start [p] of a URL fixes by itself: the scheme and the network
    location the parser model reads, when [p] runs up to and including the
    first of [/], [?], [#] that ends the network location. *)
Definition known_start (p : string) : option (string * string) :=
  match p with
  | EmptyString => None
  | String a _ =>
      let sr := Urllib.split_scheme p in
      let body := Str.drop 2 (snd sr) in
      match Str.find Urllib.colon p, Urllib.find_delim body with
      | Some _, Some j =>
          let nl := Str.take j body in
          if negb (Urllib.c0_control_or_space a)
             && negb (Str.contains_char (ascii_of_nat 9) p)
             && negb (Str.contains_char (ascii_of_nat 13) p)
             && negb (Str.contains_char (ascii_of_nat 10) p)
             && negb (is_empty (fst sr))
             && Str.startswith (snd sr) "//"
             && negb (xorb (Str.contains_char Urllib.open_bracket nl)
                           (Str.contains_char Urllib.close_bracket nl))
          then Some (fst sr, nl)
          else None
      | _, _ => None
      end
  end.

(** The characters of a plain host name: small letters, digits, [-], [.]. *)
Definition host_char (c : ascii) : bool :=
  let n := Str.code c in
  ((97 <=? n) && (n <=? 122)) || Str.is_digit c || (n =? 45) || (n =? 46).

(** An engine that finds no metadata and downloads without complaint. *)
Definition engine_no_metadata : Engine :=
  {| ydl_extract_info := fun _ _ _ => Ok None;
     ydl_download := fun _ _ _ => Ok tt |}.

(** An engine whose metadata request fails. *)
Definition engine_metadata_fails : Engine :=
  {| ydl_extract_info := fun _ _ _ => Raise (DownloadError "private video");
     ydl_download := fun _ _ _ => Ok tt |}.

(** A computation that neither asks the engine anything nor writes to
    the log. *)
Definition silent {A} (m : M A) : Prop :=
  forall w, calls (snd (m w)) = calls w /\ log (snd (m w)) = log w.

(** The output template of a parameter dictionary:
    [params['outtmpl']['default']]. *)
Definition template_of (params : value) : M value :=
  outtmpl <- getitem params "outtmpl" ;;
  getitem outtmpl "default".

(** [d[k]] read in the store [h]. *)
Definition item (h : list object) (d : value) (k : string) : result value :=
  fst (getitem d k (mkWorld h [] [])).

(** * Properties *)

#[local] Arguments String.append !_ _ / : simpl nomatch.

(** ** Text helpers *)

Lemma startswith_app (p r : string) : Str.startswith (p +:+ r) p = true.
Proof.
  induction p as [|b p IH]; simpl; [done|].
  by rewrite Ascii.eqb_refl, IH.
Qed.

Lemma startswith_spec (s p : string) :
  Str.startswith s p = true <-> exists r, s = p +:+ r.
Proof.
  split.
  - revert s. induction p as [|b p IH]; intros s H.
    + by exists s.
    + destruct s as [|a s]; simpl in H; [done|].
      apply andb_true_iff in H as [Hab Hs].
      apply Ascii.eqb_eq in Hab. subst b.
      destruct (IH _ Hs) as [r ->]. by exists r.
  - intros [r ->]. apply startswith_app.
Qed.

Lemma endswith_spec (s suf : string) :
  Str.endswith s suf = true <-> exists pre, s = pre +:+ suf.
Proof.
  split.
  - induction s as [|a s IH]; cbn [Str.endswith]; intros H.
    + rewrite orb_false_r in H. apply String.eqb_eq in H. by exists EmptyString.
    + apply orb_true_iff in H as [H|H].
      * apply String.eqb_eq in H. by exists EmptyString.
      * destruct (IH H) as [pre ->]. by exists (String a pre).
  - intros [pre ->]. induction pre as [|a pre IH].
    + cbn [String.append]. destruct suf; cbn [Str.endswith];
        by rewrite String.eqb_refl.
    + cbn [String.append Str.endswith]. rewrite IH. apply orb_true_r.
Qed.

Lemma append_assoc (a b c : string) : (a +:+ b) +:+ c = a +:+ (b +:+ c).
Proof. induction a as [|x a IH]; simpl; [done|]. by rewrite IH. Qed.

Lemma append_length (a b : string) :
  String.length (a +:+ b) = String.length a + String.length b.
Proof. induction a as [|x a IH]; simpl; [done|]. by rewrite IH. Qed.

Lemma append_inj_l (a b c : string) : a +:+ c = b +:+ c -> a = b.
Proof.
  revert b. induction a as [|x a IH]; intros [|y b] H; simpl in *.
  - done.
  - apply (f_equal String.length) in H. simpl in H.
    rewrite append_length in H. lia.
  - apply (f_equal String.length) in H. simpl in H.
    rewrite append_length in H. lia.
  - injection H as -> H. f_equal. by apply IH.
Qed.

Lemma drop_app (p r : string) : Str.drop (String.length p) (p +:+ r) = r.
Proof. induction p as [|b p IH]; simpl; done. Qed.

(** ** [ensure_scheme] *)

Lemma has_scheme_spec (url : string) :
  has_scheme url = true <->
  (exists r, url = "http://" +:+ r) \/ (exists r, url = "https://" +:+ r).
Proof.
  unfold has_scheme. cbn [existsb]. rewrite orb_false_r, orb_true_iff.
  by rewrite !startswith_spec.
Qed.

Lemma has_scheme_ensure (url : string) : has_scheme (ensure_scheme url) = true.
Proof.
  unfold ensure_scheme. destruct (has_scheme url) eqn:H; simpl; [done|].
  apply has_scheme_spec. right. by exists url.
Qed.

(** C3, amended. [ensure_scheme] is a function of its argument alone. A
    URL that starts with neither [http://] nor [https://], compared
    letter for letter (the script's test), gets [https://] in front, once:
    what follows the prefix is the input itself, which starts with
    neither of the two. A URL that starts with one of the two is returned
    as it is. Applying the function twice is the same as applying it
    once. *)
Theorem ensure_scheme_normalizes (url : string) :
  (has_scheme url = false ->
     ensure_scheme url = "https://" +:+ url
     /\ Str.drop 8 (ensure_scheme url) = url
     /\ has_scheme (Str.drop 8 (ensure_scheme url)) = false)
  /\ (has_scheme url = true -> ensure_scheme url = url)
  /\ (forall r, url = "http://" +:+ r \/ url = "https://" +:+ r ->
        ensure_scheme url = url)
  /\ ensure_scheme (ensure_scheme url) = ensure_scheme url.
Proof.
  split; [|split; [|split]].
  - unfold ensure_scheme. intros H. rewrite H. cbn [negb]. by rewrite (drop_app "https://").
  - unfold ensure_scheme. by intros ->.
  - intros r Hr. unfold ensure_scheme.
    assert (has_scheme url = true) as ->; [|done].
    apply has_scheme_spec. destruct Hr; eauto.
  - unfold ensure_scheme at 1. by rewrite has_scheme_ensure.
Qed.

Lemma ensure_scheme_normalizes_witness :
  ensure_scheme "youtube.com/watch?v=XYZ" = "https://youtube.com/watch?v=XYZ"
  /\ ensure_scheme "http://youtu.be/abc" = "http://youtu.be/abc".
Proof.
  split.
  - apply (proj1 (ensure_scheme_normalizes "youtube.com/watch?v=XYZ")).
    reflexivity.
  - apply (proj1 (proj2 (ensure_scheme_normalizes "http://youtu.be/abc"))).
    reflexivity.
Defined.

(** ** [is_youtube_url] *)

Lemma host_matches_spec (host : string) :
  host_matches host = true <->
  exists d, In d valid_domains /\
            (host = d \/ exists pre, host = pre +:+ "." +:+ d).
Proof.
  unfold host_matches. rewrite existsb_exists.
  split; intros (d & Hd & H); exists d; (split; [done|]).
  - apply orb_true_iff in H as [H|H].
    + left. by apply String.eqb_eq.
    + right. by apply endswith_spec.
  - apply orb_true_iff. destruct H as [->|H].
    + left. apply String.eqb_refl.
    + right. by apply endswith_spec.
Qed.

Lemma is_youtube_url_eq `{U : UrlLib} (url : string) :
  is_youtube_url url =
  match urlparse (ensure_scheme url) with
  | Raise e => Raise e
  | Ok parsed => Ok (host_matches (or_empty (hostname parsed)))
  end.
Proof. reflexivity. Qed.

(** C2. Whatever the parser, [is_youtube_url] returns true exactly when
    the parser accepts the normalized URL and the host [h] it reports
    ([None] read as the empty text) equals one of [youtube.com],
    [youtu.be] or ends with a dot followed by one of them; it returns
    false on every other URL the parser accepts, in particular when there
    is no host. With CPython's parser, [https:///watch] has no host and is
    not a platform URL, and a URL without scheme is normalized first. *)
Theorem is_youtube_url_iff :
  (forall (U : UrlLib) (url : string),
     (is_youtube_url url = Ok true <->
      exists parsed d,
        urlparse (ensure_scheme url) = Ok parsed
        /\ In d ["youtube.com"; "youtu.be"]
        /\ (or_empty (hostname parsed) = d
            \/ exists pre, or_empty (hostname parsed) = pre +:+ "." +:+ d))
     /\ (forall parsed,
           urlparse (ensure_scheme url) = Ok parsed ->
           exists b, is_youtube_url url = Ok b)
     /\ (forall parsed,
           urlparse (ensure_scheme url) = Ok parsed ->
           hostname parsed = None ->
           or_empty (hostname parsed) = EmptyString
           /\ is_youtube_url url = Ok false))
  /\ is_youtube_url "https:///watch" = Ok false
  /\ is_youtube_url "music.youtube.com/watch?v=1" = Ok true
  /\ is_youtube_url "https://youtu.be/abc123" = Ok true
  /\ is_youtube_url "https://notyoutube.com/watch?v=1" = Ok false.
Proof.
  split; [|by vm_compute].
  intros U url. rewrite is_youtube_url_eq. split; [|split].
  - split.
    + destruct (urlparse (ensure_scheme url)) as [parsed|e]; [|done].
      intros [= H]. apply host_matches_spec in H as (d & Hd & H).
      by exists parsed, d.
    + intros (parsed & d & -> & Hd & H). f_equal.
      apply host_matches_spec. by exists d.
  - intros parsed ->. eauto.
  - intros parsed -> ->. done.
Qed.

(** ** [is_single_video] *)

Lemma is_single_video_eq `{U : UrlLib} (url : string) :
  is_single_video url =
  match urlparse (ensure_scheme url) with
  | Raise e => Raise e
  | Ok parsed =>
      if existsb (String.eqb (or_empty (hostname parsed))) short_link_hosts
      then Ok true
      else if existsb (Str.startswith (path parsed)) single_prefixes then Ok true
      else if Str.startswith (path parsed) "/playlist" then Ok false
      else Raise (structure_error (ensure_scheme url))
  end.
Proof. reflexivity. Qed.

Lemma existsb_eqb_In (x : string) (l : list string) :
  existsb (String.eqb x) l = true <-> In x l.
Proof.
  rewrite existsb_exists. split.
  - intros (y & Hy & H). apply String.eqb_eq in H. by subst.
  - intros H. exists x. by rewrite String.eqb_refl.
Qed.

Lemma existsb_startswith (s : string) (l : list string) :
  existsb (Str.startswith s) l = true <->
  exists p r, In p l /\ s = p +:+ r.
Proof.
  rewrite existsb_exists. split.
  - intros (p & Hp & H). apply startswith_spec in H as [r ->]. eauto.
  - intros (p & r & Hp & ->). exists p. split; [done|]. apply startswith_app.
Qed.

(** C1. On a platform URL the parser has accepted the normalized URL, and
    [is_single_video] answers by the first rule that applies, in the
    order of the script: the host is [youtu.be] or [www.youtu.be]: true,
    whatever the path; the path begins with [/watch], [/shorts/] or
    [/live/]: true; the path begins with [/playlist]: false; otherwise it
    raises the [ValueError] whose text quotes the normalized URL, which is
    the URL given when that one has a scheme. The five URLs of the
    specification are classified as it says. *)
Theorem is_single_video_classifies :
  (forall (U : UrlLib) (url : string),
     is_youtube_url url = Ok true ->
     exists parsed,
       urlparse (ensure_scheme url) = Ok parsed
       /\ (In (or_empty (hostname parsed)) ["youtu.be"; "www.youtu.be"] ->
           is_single_video url = Ok true)
       /\ ((exists p r, In p ["/watch"; "/shorts/"; "/live/"]
                        /\ path parsed = p +:+ r) ->
           is_single_video url = Ok true)
       /\ (~ In (or_empty (hostname parsed)) ["youtu.be"; "www.youtu.be"] ->
           ~ (exists p r, In p ["/watch"; "/shorts/"; "/live/"]
                          /\ path parsed = p +:+ r) ->
           ((exists r, path parsed = "/playlist" +:+ r) ->
            is_single_video url = Ok false)
           /\ (~ (exists r, path parsed = "/playlist" +:+ r) ->
               is_single_video url
               = Raise (ValueError
                          ("Unsupported or invalid YouTube URL structure: "
                           +:+ Str.dquote +:+ ensure_scheme url +:+ Str.dquote))
               /\ (has_scheme url = true -> ensure_scheme url = url))))
  /\ is_single_video "https://youtu.be/abc123" = Ok true
  /\ is_single_video "https://www.youtube.com/watch?v=abc123" = Ok true
  /\ is_single_video "https://www.youtube.com/shorts/abc123" = Ok true
  /\ is_single_video "https://www.youtube.com/playlist?list=xyz" = Ok false
  /\ is_single_video "https://www.youtube.com/some/other/path"
     = Raise (ValueError
                ("Unsupported or invalid YouTube URL structure: "
                 +:+ Str.dquote +:+ "https://www.youtube.com/some/other/path"
                 +:+ Str.dquote)).
Proof.
  split; [|by vm_compute].
  intros U url Hyt. rewrite is_youtube_url_eq in Hyt.
  rewrite is_single_video_eq.
  destruct (urlparse (ensure_scheme url)) as [parsed|e]; [|done].
  exists parsed. split; [done|].
  fold short_link_hosts single_prefixes.
  destruct (existsb (String.eqb (or_empty (hostname parsed))) short_link_hosts)
    eqn:Hhost.
  { apply existsb_eqb_In in Hhost. repeat split; try done. }
  assert (~ In (or_empty (hostname parsed)) short_link_hosts) as Hnot.
  { intros H. apply existsb_eqb_In in H. congruence. }
  split; [done|].
  destruct (existsb (Str.startswith (path parsed)) single_prefixes) eqn:Hpre.
  { apply existsb_startswith in Hpre. repeat split; try done. }
  assert (~ (exists p r, In p single_prefixes /\ path parsed = p +:+ r)) as Hnp.
  { intros H. apply existsb_startswith in H. congruence. }
  split; [done|]. intros _ _.
  destruct (Str.startswith (path parsed) "/playlist") eqn:Hpl.
  - apply startswith_spec in Hpl. split; [done|]. by intros [].
  - split.
    + intros H. apply startswith_spec in H. congruence.
    + intros _. split; [done|].
      intros H. by apply ensure_scheme_normalizes.
Qed.

Lemma is_single_video_classifies_witness :
  exists parsed,
    urlparse (ensure_scheme "youtu.be/playlist") = Ok parsed
    /\ hostname parsed = Some "youtu.be"
    /\ path parsed = "/playlist"
    /\ is_single_video "youtu.be/playlist" = Ok true.
Proof.
  destruct (proj1 is_single_video_classifies cpython "youtu.be/playlist" eq_refl)
    as (parsed & Hp & Hshort & _).
  exists parsed. vm_compute in Hp. injection Hp as <-.
  split; [reflexivity|]. split; [reflexivity|]. split; [reflexivity|].
  apply Hshort. vm_compute. by left.
Defined.

(** ** The log adapter *)

Lemma remove_first_leading (old rest : string) :
  Str.remove_first old (old +:+ rest) = rest.
Proof.
  destruct old as [|b old].
  - by destruct rest.
  - cbn [String.append Str.remove_first].
    change (String b (old +:+ rest)) with (String b old +:+ rest).
    by rewrite startswith_app, drop_app.
Qed.

Lemma remove_first_absent (old s : string) :
  Str.contains s old = false -> Str.remove_first old s = s.
Proof.
  induction s as [|a s IH]; cbn [Str.contains Str.remove_first]; intros H;
    apply orb_false_iff in H as [-> H]; [done|].
  by rewrite IH.
Qed.

Lemma remove_first_find (old s : string) :
  Str.remove_first old s =
  match Str.find_str old s with
  | Some i => Str.take i s +:+ Str.drop (i + String.length old) s
  | None => s
  end.
Proof.
  induction s as [|a s IH]; cbn [Str.remove_first Str.find_str].
  - by destruct (Str.startswith EmptyString old).
  - destruct (Str.startswith (String a s) old); [done|].
    rewrite IH. by destruct (Str.find_str old s).
Qed.

Lemma find_str_starts (old s : string) (i : nat) :
  Str.find_str old s = Some i ->
  Str.startswith (Str.drop i s) old = true
  /\ forall j, j < i -> Str.startswith (Str.drop j s) old = false.
Proof.
  revert i. induction s as [|a s IH]; intros i; cbn [Str.find_str].
  - destruct (Str.startswith EmptyString old) eqn:H; [|done].
    intros [= <-]. split; [done|]. lia.
  - destruct (Str.startswith (String a s) old) eqn:H.
    + intros [= <-]. split; [done|]. lia.
    + destruct (Str.find_str old s) as [k|]; [|done]. intros [= <-].
      destruct (IH k eq_refl) as [H1 H2]. split; [done|].
      intros [|j] Hj; [done|]. apply H2. lia.
Qed.

(** C8. The warning and error channels cut the first occurrence of their
    marker wherever it stands, without the [startswith] test the debug
    channel makes before it cuts. The line below starts with [retry], its
    marker stands in the middle: the statement promises its detail as the
    line came, the event carries the line without the marker. The debug
    channel passes such a line through. *)
Lemma warning_marker_inside_line :
  Str.startswith "retry WARNING: slow" "WARNING:" = false
  /\ detail_leading_marker_only "WARNING:" "retry WARNING: slow"
     = "retry WARNING: slow"
  /\ YtDlpStructlogAdapter.warning "retry WARNING: slow" []
     = [mkEvent WARNING "yt_dlp_warning" [("detail", "retry  slow")]]
  /\ YtDlpStructlogAdapter.error "fatal ERROR: disk" []
     = [mkEvent ERROR "yt_dlp_error" [("detail", "fatal  disk")]]
  /\ detail_leading_marker_only "ERROR:" "fatal ERROR: disk"
     = "fatal ERROR: disk"
  /\ YtDlpStructlogAdapter.debug "retry [debug] slow" []
     = [mkEvent INFO "yt_dlp_info" [("detail", "retry [debug] slow")]].
Proof. by vm_compute. Qed.

(** What the two channels do on every line. A line that is blank after
    trimming emits nothing. Any other line emits one event, of level
    warning and name [yt_dlp_warning] (error and [yt_dlp_error] on the
    error channel), whose detail is the line with the first occurrence of
    [WARNING:] (of [ERROR:]) removed, wherever it starts, and then trimmed
    of surrounding white space. A leading marker is that first
    occurrence; a line without the marker is only trimmed. *)
Theorem adapter_warning_error (msg : string) (sink : list log_event) :
  (Str.strip msg = EmptyString ->
     YtDlpStructlogAdapter.warning msg sink = sink
     /\ YtDlpStructlogAdapter.error msg sink = sink)
  /\ (Str.strip msg <> EmptyString ->
        YtDlpStructlogAdapter.warning msg sink
        = sink ++ [mkEvent WARNING "yt_dlp_warning"
                     [("detail", Str.strip (Str.remove_first "WARNING:" msg))]]
        /\ YtDlpStructlogAdapter.error msg sink
           = sink ++ [mkEvent ERROR "yt_dlp_error"
                        [("detail", Str.strip (Str.remove_first "ERROR:" msg))]])
  /\ (forall marker,
        Str.remove_first marker msg =
        match Str.find_str marker msg with
        | Some i => Str.take i msg +:+ Str.drop (i + String.length marker) msg
        | None => msg
        end)
  /\ (forall marker rest,
        msg = marker +:+ rest -> Str.remove_first marker msg = rest)
  /\ (forall marker,
        Str.contains msg marker = false -> Str.remove_first marker msg = msg).
Proof.
  unfold YtDlpStructlogAdapter.warning, YtDlpStructlogAdapter.error.
  split; [|split; [|split; [|split]]].
  - by intros ->.
  - intros H. by destruct (Str.strip msg).
  - intros marker. apply remove_first_find.
  - intros marker rest ->. apply remove_first_leading.
  - intros marker. apply remove_first_absent.
Qed.

Lemma adapter_warning_error_example :
  YtDlpStructlogAdapter.warning "   " [] = []
  /\ YtDlpStructlogAdapter.warning "WARNING: slow" []
     = [mkEvent WARNING "yt_dlp_warning" [("detail", "slow")]].
Proof.
  split.
  - apply (proj1 (adapter_warning_error "   " [])). reflexivity.
  - apply (proj1 (proj2 (adapter_warning_error "WARNING: slow" []))).
    by vm_compute.
Defined.

(** ** The author label *)

Lemma get_or_empty (info : gmap string (option string)) (k rest : string) :
  field_empty info k -> get_or (info !! k) rest = rest.
Proof. by intros [->|[->| ->]]. Qed.

Lemma get_or_text (info : gmap string (option string)) (k s rest : string) :
  info !! k = Some (Some s) -> s <> EmptyString -> get_or (info !! k) rest = s.
Proof. intros -> H. by destruct s. Qed.

Lemma first_author_spec (info : gmap string (option string)) :
  (forall pre k post s,
     author_fields = pre ++ k :: post ->
     (forall k', In k' pre -> field_empty info k') ->
     info !! k = Some (Some s) -> s <> EmptyString ->
     first_author info = s)
  /\ ((forall k, In k author_fields -> field_empty info k) ->
      first_author info = "Unknown Author").
Proof.
  unfold first_author, author_fields. split.
  - intros pre k post s Hsplit Hpre Hk Hs.
    destruct pre as [|k1 pre]; simplify_eq/=; [by apply get_or_text|].
    rewrite get_or_empty by auto.
    destruct pre as [|k2 pre]; simplify_eq/=; [by apply get_or_text|].
    rewrite get_or_empty by auto.
    destruct pre as [|k3 pre]; simplify_eq/=; [by apply get_or_text|].
    rewrite get_or_empty by auto.
    destruct pre as [|k4 pre]; simplify_eq/=; [by apply get_or_text|].
    by destruct pre.
  - intros H. rewrite !get_or_empty; [done|apply H; simpl; auto..].
Qed.

Lemma derive_author_eq (info : gmap string (option string)) :
  derive_author info =
  if Str.startswith (first_author info) "@"
  then Str.drop 1 (first_author info) else first_author info.
Proof. reflexivity. Qed.

(** C4. The author label is the value of the first of [channel],
    [uploader], [creator], [uploader_id] that is present, not [None] and
    not empty, or [Unknown Author] when there is none; one leading [@] is
    then dropped: a label [@r] becomes [r] (whatever [r] starts with), a
    label without leading [@] stays. The two cases of the specification
    hold. *)
Theorem derive_author_spec (info : gmap string (option string)) :
  (forall pre k post s,
     ["channel"; "uploader"; "creator"; "uploader_id"] = pre ++ k :: post ->
     (forall k', In k' pre -> field_empty info k') ->
     info !! k = Some (Some s) -> s <> EmptyString ->
     (forall r, s = "@" +:+ r -> derive_author info = r)
     /\ (Str.startswith s "@" = false -> derive_author info = s))
  /\ ((forall k, In k ["channel"; "uploader"; "creator"; "uploader_id"] ->
                 field_empty info k) ->
      derive_author info = "Unknown Author")
  /\ derive_author {[ "channel" := Some EmptyString;
                      "uploader" := Some "@JohnDoe" ]} = "JohnDoe"
  /\ derive_author ∅ = "Unknown Author"
  /\ derive_author {[ "channel" := Some EmptyString; "uploader" := None;
                      "uploader_id" := Some EmptyString ]} = "Unknown Author"
  /\ derive_author {[ "creator" := Some "@@twice" ]} = "@twice".
Proof.
  split; [|split; [|by vm_compute]].
  - intros pre k post s Hsplit Hpre Hk Hs. rewrite derive_author_eq.
    rewrite (proj1 (first_author_spec info) pre k post s) by done.
    split.
    + by intros r ->.
    + by intros ->.
  - intros H. rewrite derive_author_eq.
    by rewrite (proj2 (first_author_spec info)).
Qed.

Lemma derive_author_spec_witness :
  derive_author {[ "channel" := None; "uploader" := Some "@JohnDoe" ]}
  = "JohnDoe".
Proof.
  apply (proj1 (derive_author_spec
                  {[ "channel" := None; "uploader" := Some "@JohnDoe" ]})
           ["channel"] "uploader" ["creator"; "uploader_id"] "@JohnDoe").
  - reflexivity.
  - intros k' [<-|[]]. right. left. by vm_compute.
  - by vm_compute.
  - discriminate.
  - reflexivity.
Defined.

(** ** Isolation: what a computation leaves untouched

    Every operation of the store respects every boundary it is given new
    targets for; so do [deepcopy] and, through it, the two download
    operations. *)

Lemma frame_refl n w : frame n w w.
Proof. by split. Qed.

Lemma frame_trans n w1 w2 w3 : frame n w1 w2 -> frame n w2 w3 -> frame n w1 w3.
Proof.
  intros [L1 H1] [L2 H2]. split; [lia|].
  intros a Ha. by rewrite H2, H1.
Qed.

Section Respects.
Context {A B : Type} (n : nat).

Lemma respects_ret (a : A) (Q : A -> Prop) : Q a -> respects n (ret a) Q.
Proof.
  intros HQ w Hw. simpl. split; [apply frame_refl|]. split; [done|].
  by intros ? [= <-].
Qed.

Lemma respects_raise (e : exn) (Q : A -> Prop) : respects n (raise e) Q.
Proof. intros w Hw. simpl. split; [apply frame_refl|]. by split. Qed.

Lemma respects_lift (r : result A) : respects n (lift r) (fun _ => True).
Proof. intros w Hw. simpl. split; [apply frame_refl|]. by split. Qed.

Lemma respects_bind (m : M A) (k : A -> M B) (P : A -> Prop) (Q : B -> Prop) :
  respects n m P -> (forall a, P a -> respects n (k a) Q) ->
  respects n (bind m k) Q.
Proof.
  intros Hm Hk w Hw. unfold bind.
  destruct (Hm w Hw) as (Hf & Hc & HP).
  destruct (m w) as [[a|e] w1]; simpl in *.
  - destruct (Hk a (HP a eq_refl) w1 Hc) as (Hf' & Hc' & HQ).
    split; [by eapply frame_trans|]. by split.
  - split; [done|]. split; [done|]. by intros ? [=].
Qed.

Lemma respects_weaken (m : M A) (P Q : A -> Prop) :
  respects n m P -> (forall a, P a -> Q a) -> respects n m Q.
Proof.
  intros Hm HPQ w Hw. destruct (Hm w Hw) as (Hf & Hc & HP).
  split; [done|]. split; [done|]. auto.
Qed.

End Respects.

Lemma closed_above_heap n w w' :
  heap w' = heap w -> closed_above n w -> closed_above n w'.
Proof. unfold closed_above. by intros ->. Qed.

Lemma frame_heap n w w' : heap w' = heap w -> frame n w w'.
Proof. unfold frame. by intros ->. Qed.

Lemma respects_log_call n l event fields :
  respects n (log_call l event fields) (fun _ => True).
Proof.
  intros w Hw. simpl. split; [by apply frame_heap|].
  split; [by eapply closed_above_heap|done].
Qed.

Lemma respects_alloc n o :
  obj_fresh n o -> respects n (alloc o) (fun a => n <= a).
Proof.
  intros Ho w [Hn Hc]. unfold alloc, with_heap. simpl. split; [|split].
  - split; simpl; [rewrite length_app; lia|].
    intros a Ha. apply lookup_app_l. lia.
  - split; simpl; [rewrite length_app; lia|].
    intros a o' Ha Hl. destruct (decide (a < length (heap w))) as [Hlt|Hge].
    + rewrite lookup_app_l in Hl by done. eauto.
    + rewrite lookup_app_r in Hl by lia.
      destruct (a - length (heap w)) as [|k]; simpl in Hl; [|done].
      by injection Hl as <-.
  - by intros a [= <-].
Qed.

Lemma respects_new n o :
  obj_fresh n o -> respects n (new o) (fresh n).
Proof.
  intros Ho w Hw. destruct (respects_alloc n o Ho w Hw) as (Hf & Hc & HQ).
  split; [done|]. split; [done|].
  intros a [= <-]. simpl. apply Hw.
Qed.

Lemma respects_load n x :
  fresh n x -> respects n (load x) (fun r => obj_fresh n (snd r) /\ n <= fst r
                                             /\ x = VRef (fst r)).
Proof.
  intros Hx w Hw. unfold load. destruct x as [| | | |a]; simpl;
    try (split; [apply frame_refl|by split]).
  destruct (heap w !! a) as [o|] eqn:Ho; simpl;
    (split; [apply frame_refl|split; [done|]]); [|done].
  intros r [= <-]. simpl. split; [|done]. destruct Hw as [_ Hc]. eauto.
Qed.

Lemma respects_store n a o :
  n <= a -> obj_fresh n o -> respects n (store a o) (fun _ => True).
Proof.
  intros Ha Ho w [Hn Hc]. unfold store, with_heap. simpl.
  split; [|split; [|done]].
  - split; simpl; [by rewrite length_insert|].
    intros b Hb. apply list_lookup_insert_ne. lia.
  - split; simpl; [by rewrite length_insert|].
    intros b o' Hb Hl.
    destruct (decide (a = b)) as [->|Hne].
    + destruct (decide (b < length (heap w))) as [Hlt|Hge].
      * rewrite list_lookup_insert_eq in Hl by done. by injection Hl as <-.
      * rewrite list_insert_ge in Hl by lia. eauto.
    + rewrite list_lookup_insert_ne in Hl by done. eauto.
Qed.

Lemma dict_set_fresh n k v items :
  fresh n v -> Forall (fun kv => fresh n (snd kv)) items ->
  Forall (fun kv => fresh n (snd kv)) (dict_set k v items).
Proof.
  intros Hv. induction 1 as [|[k' v'] rest Hx Hrest IH]; simpl.
  - by constructor.
  - destruct (String.eqb k' k); by constructor.
Qed.

Lemma dict_get_fresh n k v items :
  Forall (fun kv => fresh n (snd kv)) items -> dict_get k items = Some v ->
  fresh n v.
Proof.
  induction 1 as [|[k' v'] rest Hx Hrest IH]; simpl; [done|].
  destruct (String.eqb k' k); [by intros [= <-]|done].
Qed.

Lemma respects_getitem n d k :
  fresh n d -> respects n (getitem d k) (fresh n).
Proof.
  intros Hd. eapply respects_bind; [by apply respects_load|].
  intros [a o] (Ho & _ & _). simpl in Ho.
  destruct o as [items| | |]; try apply respects_raise.
  destruct (dict_get k items) as [v|] eqn:Hv; [|apply respects_raise].
  apply respects_ret. by eapply dict_get_fresh.
Qed.

Lemma respects_setitem n d k v :
  fresh n d -> fresh n v -> respects n (setitem d k v) (fun _ => True).
Proof.
  intros Hd Hv. eapply respects_bind; [by apply respects_load|].
  intros [a o] (Ho & Ha & _). simpl in *.
  destruct o as [items| | |]; try apply respects_raise.
  apply respects_store; [done|]. by apply dict_set_fresh.
Qed.

Lemma respects_append n l v :
  fresh n l -> fresh n v -> respects n (append l v) (fun _ => True).
Proof.
  intros Hl Hv. eapply respects_bind; [by apply respects_load|].
  intros [a o] (Ho & Ha & _). simpl in *.
  destruct o as [|elems| |]; try apply respects_raise.
  apply respects_store; [done|]. simpl. apply Forall_app. by repeat constructor.
Qed.

Lemma respects_setattr n x k v :
  fresh n x -> fresh n v -> respects n (setattr x k v) (fun _ => True).
Proof.
  intros Hx Hv. eapply respects_bind; [by apply respects_load|].
  intros [a o] (Ho & Ha & _). simpl in *.
  destruct o as [| | |cls attrs]; try apply respects_raise.
  apply respects_store; [done|]. by apply dict_set_fresh.
Qed.

Lemma respects_load_any n x : respects n (load x) (fun _ => True).
Proof.
  intros w Hw. unfold load.
  destruct x as [| | | |a]; simpl; try (split; [apply frame_refl|by split]).
  destruct (heap w !! a); simpl; (split; [apply frame_refl|by split]).
Qed.

Lemma memo_get_fresh n a y memo :
  memo_fresh n memo -> memo_get a memo = Some y -> n <= y.
Proof.
  unfold memo_get. induction 1 as [|[a' y'] rest Hx Hrest IH]; simpl; [done|].
  destruct (Nat.eqb a' a); simpl; [by intros [= <-]|done].
Qed.

Lemma respects_copy_each {K} n
    (cp : value -> list (addr * addr) -> M (value * list (addr * addr)))
    (put : K -> value -> M unit) (items : list (K * value)) :
  (forall v memo, memo_fresh n memo ->
     respects n (cp v memo) (fun r => fresh n (fst r) /\ memo_fresh n (snd r))) ->
  (forall k v, fresh n v -> respects n (put k v) (fun _ => True)) ->
  forall memo, memo_fresh n memo ->
    respects n (copy_each cp put items memo) (memo_fresh n).
Proof.
  intros Hcp Hput. induction items as [|[k v] rest IH]; intros memo Hm; simpl.
  - by apply respects_ret.
  - eapply respects_bind; [by apply Hcp|]. intros [v' memo'] [Hv Hm'].
    eapply respects_bind; [by apply Hput|]. intros _ _. by apply IH.
Qed.

Lemma respects_deepcopy_rec n fuel :
  forall x memo, memo_fresh n memo ->
    respects n (deepcopy_rec fuel x memo)
      (fun r => fresh n (fst r) /\ memo_fresh n (snd r)).
Proof.
  induction fuel as [|fuel IH]; intros x memo Hm;
    (destruct x as [| | | |a]; simpl; try by apply respects_ret);
    (destruct (memo_get a memo) as [y|] eqn:Hy;
       [apply respects_ret; split; [by eapply memo_get_fresh|done]|]).
  - apply respects_raise.
  - eapply respects_bind; [apply respects_load_any|]. intros [a' o] _.
    destruct o as [items|elems|elems|cls attrs]; simpl.
    + eapply respects_bind; [by apply respects_alloc; constructor|].
      intros y Hy'. eapply respects_bind.
      * apply respects_copy_each; [done| |by constructor].
        intros k v Hv. by apply respects_setitem.
      * intros memo' Hm'. by apply respects_ret.
    + eapply respects_bind; [by apply respects_alloc; constructor|].
      intros y Hy'. eapply respects_bind.
      * apply respects_copy_each; [done| |by constructor].
        intros k v Hv. by apply respects_append.
      * intros memo' Hm'. by apply respects_ret.
    + eapply respects_bind; [by apply respects_alloc|].
      intros y Hy'. apply respects_ret. split; [done|by constructor].
    + eapply respects_bind; [by apply respects_alloc; constructor|].
      intros y Hy'. eapply respects_bind.
      * apply respects_copy_each; [done| |by constructor].
        intros k v Hv. by apply respects_setattr.
      * intros memo' Hm'. by apply respects_ret.
Qed.

Lemma respects_deepcopy n x : respects n (deepcopy x) (fresh n).
Proof.
  eapply respects_bind; [by apply respects_deepcopy_rec; constructor|].
  intros [v memo] [Hv _]. by apply respects_ret.
Qed.

Lemma respects_extract_info `{E : Engine} n ydl url :
  respects n (extract_info ydl url) (fun _ => True).
Proof.
  intros w Hw; simpl.
  split; [by apply frame_heap|split; [by eapply closed_above_heap|done]].
Qed.

Lemma respects_download `{E : Engine} n ydl urls :
  respects n (download ydl urls) (fun _ => True).
Proof.
  intros w Hw; simpl.
  split; [by apply frame_heap|split; [by eapply closed_above_heap|done]].
Qed.

Lemma respects_download_single_video `{E : Engine} n url params cookies :
  respects n (download_single_video url params cookies) (fun _ => True).
Proof.
  eapply respects_bind; [apply respects_deepcopy|]. intros local_params Hl.
  eapply respects_bind.
  { destruct (negb (is_empty cookies)).
    - by apply respects_setitem.
    - by apply respects_ret. }
  intros _ _. eapply respects_bind; [apply respects_extract_info|].
  intros r _. eapply respects_bind; [by apply respects_getitem|].
  intros outtmpl Ho. eapply respects_bind; [by apply respects_setitem|].
  intros _ _. apply respects_download.
Qed.

Lemma respects_download_playlist `{E : Engine} n url params cookies :
  respects n (download_playlist url params cookies) (fun _ => True).
Proof.
  eapply respects_bind; [apply respects_deepcopy|]. intros local_params Hl.
  eapply respects_bind; [by apply respects_getitem|].
  intros outtmpl Ho. eapply respects_bind; [by apply respects_setitem|].
  intros _ _. eapply respects_bind.
  { destruct (negb (is_empty cookies)).
    - by apply respects_setitem.
    - by apply respects_ret. }
  intros _ _. apply respects_download.
Qed.

Lemma closed_above_length w : closed_above (length (heap w)) w.
Proof.
  split; [done|]. intros a o Ha Hl. apply lookup_lt_Some in Hl. lia.
Qed.

(** Whatever a computation that respects every boundary does, the objects
    that were in the store before it are there unchanged after it. *)
Lemma respects_old_objects {A} (m : M A) (w : world) (a : addr) (o : object) :
  (forall n, respects n m (fun _ => True)) ->
  heap w !! a = Some o -> heap (snd (m w)) !! a = Some o.
Proof.
  intros Hm Ho.
  destruct (Hm (length (heap w)) w (closed_above_length w)) as [[_ Hf] _].
  rewrite Hf; [done|]. by eapply lookup_lt_Some.
Qed.

(** ** The configuration builder *)

Lemma with_heap_nil (w : world) : with_heap (heap w ++ []) w = w.
Proof. destruct w. unfold with_heap. cbn [heap calls log]. by rewrite app_nil_r. Qed.

Lemma bind_new {B} (h l : list object) (w : world) (o : object)
    (k : value -> M B) :
  bind (new o) k (with_heap (h ++ l) w)
  = k (VRef (length h + length l)) (with_heap (h ++ (l ++ [o])) w).
Proof.
  unfold bind, new, with_heap. cbn [heap calls log].
  by rewrite length_app, app_assoc.
Qed.

Lemma new_eval (h l : list object) (w : world) (o : object) :
  new o (with_heap (h ++ l) w)
  = (Ok (VRef (length h + length l)), with_heap (h ++ (l ++ [o])) w).
Proof.
  unfold new, with_heap. cbn [heap calls log].
  by rewrite length_app, app_assoc.
Qed.

Lemma get_base_ydl_params_eval (custom_logger : value) (w : world) :
  get_base_ydl_params custom_logger w
  = (Ok (VRef (length (heap w) + 11)),
     with_heap (heap w ++ base_objects (length (heap w)) custom_logger) w).
Proof.
  rewrite <- (with_heap_nil w) at 1. unfold get_base_ydl_params.
  do 11 (rewrite bind_new; cbn [length app]).
  rewrite new_eval. cbn [length app].
  rewrite Nat.add_0_r. reflexivity.
Qed.

Lemma lookup_app_add {A} (h l : list A) (k : nat) :
  (h ++ l) !! (length h + k) = l !! k.
Proof. rewrite lookup_app_r by lia. f_equal. lia. Qed.

Lemma insert_app_add {A} (h l : list A) (k : nat) (x : A) :
  <[length h + k := x]> (h ++ l) = h ++ <[k := x]> l.
Proof. rewrite insert_app_r_alt by lia. do 2 f_equal. lia. Qed.

Ltac heap_lookup :=
  cbn [heap with_heap]; rewrite lookup_app_add; reflexivity.

Lemma getitem_eval (w : world) (a : addr) (items : list (string * value))
    (k : string) (v : value) :
  heap w !! a = Some (ODict items) -> dict_get k items = Some v ->
  getitem (VRef a) k w = (Ok v, w).
Proof. intros Ha Hk. unfold getitem, bind, load. by rewrite Ha, Hk. Qed.

Lemma setitem_eval (w : world) (a : addr) (items : list (string * value))
    (k : string) (v : value) :
  heap w !! a = Some (ODict items) ->
  setitem (VRef a) k v w
  = (Ok tt, with_heap (<[a := ODict (dict_set k v items)]> (heap w)) w).
Proof. intros Ha. unfold setitem, bind, load. by rewrite Ha. Qed.

Lemma base_objects_length n l : length (base_objects n l) = 12.
Proof. reflexivity. Qed.

(** Two configurations built one after the other share no dictionary:
    writing the output template of one is not seen through the other. *)
Lemma sequential_builds_independent (l1 l2 : value) (w : world) (v : value) :
  exists p1 p2 o1 o2 w1 w2,
    get_base_ydl_params l1 w = (Ok (VRef p1), w1)
    /\ get_base_ydl_params l2 w1 = (Ok (VRef p2), w2)
    /\ length (heap w) <= p1 /\ length (heap w1) <= p2 /\ p1 <> p2
    /\ getitem (VRef p1) "outtmpl" w2 = (Ok (VRef o1), w2)
    /\ getitem (VRef p2) "outtmpl" w2 = (Ok (VRef o2), w2)
    /\ o1 <> o2
    /\ (forall w3, setitem (VRef o1) "default" v w2 = (Ok tt, w3) ->
          getitem (VRef o1) "default" w3 = (Ok v, w3)
          /\ getitem (VRef o2) "default" w3 = (Ok (VStr ""), w3))
    /\ (forall w3, setitem (VRef o2) "default" v w2 = (Ok tt, w3) ->
          getitem (VRef o2) "default" w3 = (Ok v, w3)
          /\ getitem (VRef o1) "default" w3 = (Ok (VStr ""), w3))
    /\ (exists w3, setitem (VRef o1) "default" v w2 = (Ok tt, w3))
    /\ (exists w3, setitem (VRef o2) "default" v w2 = (Ok tt, w3)).
Proof.
  exists (length (heap w) + 11), (length (heap w) + 23),
         (length (heap w) + 1), (length (heap w) + 13).
  eexists. eexists.
  split; [apply get_base_ydl_params_eval|].
  split.
  { rewrite get_base_ydl_params_eval. cbn [heap with_heap].
    rewrite length_app, base_objects_length.
    replace (length (heap w) + 12 + 11) with (length (heap w) + 23) by lia.
    reflexivity. }
  cbn [heap with_heap calls log].
  rewrite length_app, base_objects_length, <- app_assoc.
  split; [lia|]. split; [lia|]. split; [lia|].
  split. { eapply getitem_eval; [heap_lookup|reflexivity]. }
  split. { eapply getitem_eval; [heap_lookup|].
           cbn [dict_get String.eqb Ascii.eqb Bool.eqb]. f_equal. f_equal. lia. }
  split; [lia|].
  split; [|split; [|split]].
  - intros w3. erewrite setitem_eval by heap_lookup.
    intros [= <-]. cbn [heap with_heap]. rewrite insert_app_add. split.
    + eapply getitem_eval; [heap_lookup|reflexivity].
    + eapply getitem_eval; [heap_lookup|reflexivity].
  - intros w3. erewrite setitem_eval by heap_lookup.
    intros [= <-]. cbn [heap with_heap]. rewrite insert_app_add. split.
    + eapply getitem_eval; [heap_lookup|reflexivity].
    + eapply getitem_eval; [heap_lookup|reflexivity].
  - eexists. eapply setitem_eval. heap_lookup.
  - eexists. eapply setitem_eval. heap_lookup.
Qed.

(** ** The download operations in the process

    The process starts from [initial_world]; [main] builds the base
    configuration there and hands it to one of the two operations. *)

Lemma process_base_eval (c : list engine_call) (l : list log_event) :
  get_base_ydl_params logger (process_world c l)
  = (Ok (VRef 12), mkWorld (heap initial_world ++ base_objects 1 logger) c l).
Proof. apply get_base_ydl_params_eval. Qed.

(** C7. In the process, [download_playlist] copies the base configuration
    into new objects (a deep copy: equal contents, no object shared, and
    no new object refers to an old one), leaves every object that existed
    untouched, writes the playlist template under [outtmpl], [default] of
    the copy and nowhere else, writes [cookiefile] into the copy exactly
    when the cookies path is not empty, and asks the engine for one thing
    only: the download of the one URL, with the copy as parameters. The
    result is the engine's. *)
Theorem download_playlist_steps
    (E : Engine) (url cookies : string)
    (c : list engine_call) (l : list log_event) :
  exists (b a t : addr) (w1 : world),
    get_base_ydl_params logger (process_world c l) = (Ok (VRef b), w1)
    /\ fst (deepcopy (VRef b) w1) = Ok (VRef a)
    /\ length (heap w1) <= a
    /\ copy_of 4 (heap (snd (deepcopy (VRef b) w1))) (VRef b) (VRef a) = true
    /\ let w2 := snd (download_playlist url (VRef b) cookies w1) in
       fst (download_playlist url (VRef b) cookies w1)
       = ydl_download (heap w2) (VRef a) [url]
       /\ calls w2 = c ++ [Download (VRef a) [url]]
       /\ log w2 = l
       /\ (forall x o, heap w1 !! x = Some o -> heap w2 !! x = Some o)
       /\ closed_above (length (heap w1)) w2
       /\ (forall x, x <> a -> x <> t ->
             heap w2 !! x = heap (snd (deepcopy (VRef b) w1)) !! x)
       /\ getitem (VRef a) "outtmpl" w2 = (Ok (VRef t), w2)
       /\ getitem (VRef t) "default" w2
          = (Ok (VStr "%(channel)s - %(playlist_title)s/%(playlist_index)03d - %(title)s.%(ext)s"),
             w2)
       /\ getitem (VRef t) "pl_thumbnail" w2 = (Ok (VStr ""), w2)
       /\ (cookies = EmptyString ->
             fst (getitem (VRef a) "cookiefile" w2)
             = Raise (OtherException "KeyError" "cookiefile"))
       /\ (cookies <> EmptyString ->
             getitem (VRef a) "cookiefile" w2 = (Ok (VStr cookies), w2)).
Proof.
  exists 12, 13, 15. eexists. split; [apply process_base_eval|].
  set (w1 := mkWorld _ c l).
  split; [by vm_compute|]. split; [simpl; lia|]. split; [by vm_compute|].
  cbv zeta.
  split; [destruct cookies; by vm_compute|].
  split; [destruct cookies; by vm_compute|].
  split; [destruct cookies; by vm_compute|].
  split.
  { intros x o. apply respects_old_objects. intros n.
    apply respects_download_playlist. }
  split.
  { apply (respects_download_playlist (length (heap w1)) url (VRef 12) cookies w1).
    apply closed_above_length. }
  split.
  { intros x Ha Ht.
    assert (heap (snd (download_playlist url (VRef 12) cookies w1))
            = <[13 := default (OSet []) (heap (snd (download_playlist url (VRef 12) cookies w1)) !! 13)]>
                (<[15 := default (OSet []) (heap (snd (download_playlist url (VRef 12) cookies w1)) !! 15)]>
                   (heap (snd (deepcopy (VRef 12) w1))))) as ->.
    { destruct cookies; by vm_compute. }
    by rewrite !list_lookup_insert_ne. }
  split; [destruct cookies; by vm_compute|].
  split; [destruct cookies; by vm_compute|].
  split; [destruct cookies; by vm_compute|].
  split.
  - intros ->. by vm_compute.
  - intros H. destruct cookies as [|ch cookies]; [congruence|].
    vm_compute. reflexivity.
Qed.

Lemma bind_eval {A B} (m : M A) (k : A -> M B) (w w' : world) (a : A) :
  m w = (Ok a, w') -> bind m k w = k a w'.
Proof. unfold bind. by intros ->. Qed.

(** [download_single_video] in the process, step by step: the copy, the
    cookies, the metadata request, the template, the download. *)
Lemma download_single_video_eval
    (E : Engine) (url cookies : string)
    (c : list engine_call) (l : list log_event)
    (r : option (gmap string (option string))) :
  (forall h y, ydl_extract_info h y url = Ok r) ->
  let w1 := mkWorld (heap initial_world ++ base_objects 1 logger) c l in
  let wa := snd (deepcopy (VRef 12) w1) in
  let wb := snd ((if negb (is_empty cookies)
                  then setitem (VRef 13) "cookiefile" (VStr cookies)
                  else ret tt) wa) in
  let wc := mkWorld (heap wb) (calls wb ++ [ExtractInfo (VRef 13) url]) (log wb) in
  let wd := snd (setitem (VRef 15) "default"
                   (VStr (derive_author (default ∅ r) +:+ " - %(title)s.%(ext)s"))
                   wc) in
  download_single_video url (VRef 12) cookies w1
  = (ydl_download (heap wd) (VRef 13) [url],
     mkWorld (heap wd) (calls wd ++ [Download (VRef 13) [url]]) (log wd)).
Proof.
  intros Hr w1 wa wb wc wd. unfold download_single_video.
  rewrite (bind_eval _ _ w1 wa (VRef 13)) by (vm_compute; reflexivity).
  rewrite (bind_eval _ _ wa wb tt) by (destruct cookies; vm_compute; reflexivity).
  rewrite (bind_eval _ _ wb wc r) by (unfold extract_info; by rewrite Hr).
  subst wd. generalize (derive_author (default ∅ r)). intros author.
  rewrite (bind_eval _ _ wc wc (VRef 15))
    by (destruct cookies; vm_compute; reflexivity).
  set (wd := snd (setitem _ _ _ wc)).
  rewrite (bind_eval _ _ wc wd tt) by (destruct cookies; vm_compute; reflexivity).
  reflexivity.
Qed.

(** C10. When the first metadata field that is present and not empty is
    the one-character text [@], the author label is the empty text: the
    [@] is dropped and [Unknown Author] is not tried again. In the
    process, [download_single_video] then writes the template
    [ - %(title)s.%(ext)s] under [outtmpl], [default] of its copy, after
    the metadata request and before the download it asks of the engine. *)
Theorem single_video_lone_at_sign
    (E : Engine) (url cookies : string)
    (c : list engine_call) (l : list log_event)
    (info : gmap string (option string)) (pre : list string) (k : string)
    (post : list string) :
  ["channel"; "uploader"; "creator"; "uploader_id"] = pre ++ k :: post ->
  (forall k', In k' pre -> field_empty info k') ->
  info !! k = Some (Some "@") ->
  (forall h y, ydl_extract_info h y url = Ok (Some info)) ->
  derive_author info = EmptyString
  /\ exists (b a t : addr) (w1 : world),
       get_base_ydl_params logger (process_world c l) = (Ok (VRef b), w1)
       /\ let w2 := snd (download_single_video url (VRef b) cookies w1) in
          fst (download_single_video url (VRef b) cookies w1)
          = ydl_download (heap w2) (VRef a) [url]
          /\ calls w2 = c ++ [ExtractInfo (VRef a) url; Download (VRef a) [url]]
          /\ getitem (VRef a) "outtmpl" w2 = (Ok (VRef t), w2)
          /\ getitem (VRef t) "default" w2
             = (Ok (VStr " - %(title)s.%(ext)s"), w2).
Proof.
  intros Hsplit Hpre Hk Hinfo.
  assert (derive_author info = EmptyString) as Hauthor.
  { rewrite derive_author_eq.
    by rewrite (proj1 (first_author_spec info) pre k post "@"). }
  split; [done|].
  exists 12, 13, 15. eexists. split; [apply process_base_eval|].
  pose proof (download_single_video_eval E url cookies c l (Some info) Hinfo)
    as He.
  cbv zeta in He. change (default ∅ (Some info)) with info in He.
  rewrite Hauthor in He. cbv zeta. rewrite He. clear He.
  destruct cookies;
    (split; [vm_compute; reflexivity|
     split; [|split; vm_compute; reflexivity]]);
    (transitivity ((c ++ [ExtractInfo (VRef 13) url]) ++ [Download (VRef 13) [url]]);
     [vm_compute; reflexivity|by rewrite <- app_assoc]).
Qed.

Lemma single_video_lone_at_sign_witness :
  derive_author {[ "channel" := Some "@" ]} = EmptyString
  /\ exists (b t : addr) (w1 : world),
       get_base_ydl_params logger (process_world [] []) = (Ok (VRef b), w1)
       /\ fst (getitem (VRef t) "default"
                 (snd (@download_single_video engine_channel_at "youtu.be/abc"
                         (VRef b) EmptyString w1)))
          = Ok (VStr " - %(title)s.%(ext)s").
Proof.
  destruct (single_video_lone_at_sign engine_channel_at "youtu.be/abc"
              EmptyString [] [] {[ "channel" := Some "@" ]} [] "channel"
              ["uploader"; "creator"; "uploader_id"])
    as (Hauthor & b & a & t & w1 & Hb & _ & _ & _ & Ht).
  - reflexivity.
  - intros k' [].
  - by vm_compute.
  - reflexivity.
  - split; [exact Hauthor|]. exists b, t, w1. split; [exact Hb|].
    by rewrite Ht.
Defined.

(** C6. Every call of the builder returns a dictionary that did not exist
    before the call and touches no object that did. Two configurations
    built one after the other are different objects with different
    [outtmpl] dictionaries: a template written into one is read back from
    it and is not seen in the other, which still holds the empty
    template. Both download operations work on a deep copy: whatever the
    store, the parameters, the URL, the cookies and the engine's answers,
    every object that existed before the call (the base configuration,
    the copy of any earlier request) is the same after it. *)
Theorem configuration_isolation :
  (forall (custom_logger : value) (w : world),
     exists (p : addr) (w' : world) (items : list (string * value)),
       get_base_ydl_params custom_logger w = (Ok (VRef p), w')
       /\ length (heap w) <= p
       /\ heap w' !! p = Some (ODict items)
       /\ forall a o, heap w !! a = Some o -> heap w' !! a = Some o)
  /\ (forall (l1 l2 : value) (w : world) (v : value),
        exists p1 p2 o1 o2 w1 w2,
          get_base_ydl_params l1 w = (Ok (VRef p1), w1)
          /\ get_base_ydl_params l2 w1 = (Ok (VRef p2), w2)
          /\ p1 <> p2
          /\ getitem (VRef p1) "outtmpl" w2 = (Ok (VRef o1), w2)
          /\ getitem (VRef p2) "outtmpl" w2 = (Ok (VRef o2), w2)
          /\ o1 <> o2
          /\ (exists w3,
                setitem (VRef o1) "default" v w2 = (Ok tt, w3)
                /\ getitem (VRef o1) "default" w3 = (Ok v, w3)
                /\ getitem (VRef o2) "default" w3 = (Ok (VStr ""), w3))
          /\ (exists w3,
                setitem (VRef o2) "default" v w2 = (Ok tt, w3)
                /\ getitem (VRef o2) "default" w3 = (Ok v, w3)
                /\ getitem (VRef o1) "default" w3 = (Ok (VStr ""), w3)))
  /\ (forall (E : Engine) (url : string) (params : value) (cookies : string)
             (w : world) (a : addr) (o : object),
        heap w !! a = Some o ->
        heap (snd (download_single_video url params cookies w)) !! a = Some o
        /\ heap (snd (download_playlist url params cookies w)) !! a = Some o).
Proof.
  split; [|split].
  - intros custom_logger w. eexists. eexists. eexists.
    split; [apply get_base_ydl_params_eval|].
    split; [lia|]. split; [heap_lookup|].
    intros a o Ha. cbn [heap with_heap]. rewrite lookup_app_l; [done|].
    by eapply lookup_lt_Some.
  - intros l1 l2 w v.
    destruct (sequential_builds_independent l1 l2 w v)
      as (p1 & p2 & o1 & o2 & w1 & w2 & H1 & H2 & _ & _ & Hp & Hg1 & Hg2 & Ho
          & Hs1 & Hs2 & [w3 Hw3] & [w3' Hw3']).
    exists p1, p2, o1, o2, w1, w2.
    repeat (split; [done|]). split.
    + exists w3. split; [done|]. by apply Hs1.
    + exists w3'. split; [done|]. by apply Hs2.
  - intros E url params cookies w a o Ha. split.
    + apply respects_old_objects; [|done]. intros n.
      apply respects_download_single_video.
    + apply respects_old_objects; [|done]. intros n.
      apply respects_download_playlist.
Qed.

(** In the process the base dictionary is the object 12; a playlist
    download leaves it as the builder made it. *)
Lemma configuration_isolation_witness :
  heap (snd (@download_playlist engine_channel_at "youtu.be/playlist?list=x"
               (VRef 12) "cookies.txt"
               (mkWorld (heap initial_world ++ base_objects 1 logger) [] [])))
    !! 2
  = Some (ODict [("default", VStr ""); ("pl_thumbnail", VStr "")]).
Proof.
  apply (proj2 (proj2 configuration_isolation) engine_channel_at).
  reflexivity.
Defined.

(** ** The entry point *)

Lemma run_exit_code `{U : UrlLib} `{E : Engine} (argv : invocation) (w : world) :
  fst (run argv w) = exit_code_for (fst (app argv (started w))).
Proof.
  unfold run. fold (started w).
  destruct (app argv (started w)) as [[u|e] w']; [done|]. by destruct e.
Qed.

Lemma main_not_youtube `{U : UrlLib} `{E : Engine} (url cookies : string)
    (w : world) :
  is_youtube_url url = Ok false ->
  fst (main url cookies w) = Raise (not_youtube_error url).
Proof. intros H. unfold main, bind, lift. by rewrite H. Qed.

Lemma main_parse_error `{U : UrlLib} `{E : Engine} (url cookies : string)
    (w : world) (e : exn) :
  is_youtube_url url = Raise e -> fst (main url cookies w) = Raise e.
Proof. intros H. unfold main, bind, lift. by rewrite H. Qed.

Lemma main_structure_error `{U : UrlLib} `{E : Engine} (url cookies : string)
    (w : world) (e : exn) :
  is_youtube_url url = Ok true -> is_single_video url = Raise e ->
  fst (main url cookies w) = Raise e.
Proof.
  intros H1 H2. unfold main. rewrite (bind_eval _ _ w w true) by by rewrite H1.
  cbn [negb]. erewrite bind_eval by apply get_base_ydl_params_eval.
  unfold bind, lift. by rewrite H2.
Qed.

Lemma main_playlist `{U : UrlLib} `{E : Engine} (url cookies : string)
    (c : list engine_call) (l : list log_event) :
  is_youtube_url url = Ok true -> is_single_video url = Ok false ->
  main url cookies (process_world c l)
  = download_playlist url (VRef 12) cookies
      (mkWorld (heap initial_world ++ base_objects 1 logger) c
         (l ++ [mkEvent INFO "downloading_playlist" [("url", url)]])).
Proof.
  intros H1 H2. unfold main.
  rewrite (bind_eval _ _ _ (process_world c l) true) by by rewrite H1.
  cbn [negb]. erewrite bind_eval by apply process_base_eval.
  erewrite bind_eval by (rewrite H2; reflexivity).
  reflexivity.
Qed.

Lemma main_single `{U : UrlLib} `{E : Engine} (url cookies : string)
    (c : list engine_call) (l : list log_event) :
  is_youtube_url url = Ok true -> is_single_video url = Ok true ->
  main url cookies (process_world c l)
  = download_single_video url (VRef 12) cookies
      (mkWorld (heap initial_world ++ base_objects 1 logger) c
         (l ++ [mkEvent INFO "downloading_single_video" [("url", url)]])).
Proof.
  intros H1 H2. unfold main.
  rewrite (bind_eval _ _ _ (process_world c l) true) by by rewrite H1.
  cbn [negb]. erewrite bind_eval by apply process_base_eval.
  erewrite bind_eval by (rewrite H2; reflexivity).
  reflexivity.
Qed.

Lemma download_playlist_result `{E : Engine} (url cookies : string)
    (c : list engine_call) (l : list log_event) :
  let w1 := mkWorld (heap initial_world ++ base_objects 1 logger) c l in
  fst (download_playlist url (VRef 12) cookies w1)
  = ydl_download (heap (snd (download_playlist url (VRef 12) cookies w1)))
      (VRef 13) [url].
Proof. destruct cookies; vm_compute; reflexivity. Qed.

Lemma download_single_video_extract_raises `{E : Engine} (url cookies : string)
    (c : list engine_call) (l : list log_event) (e : exn) :
  (forall h y, ydl_extract_info h y url = Raise e) ->
  fst (download_single_video url (VRef 12) cookies
         (mkWorld (heap initial_world ++ base_objects 1 logger) c l))
  = Raise e.
Proof.
  intros He. unfold download_single_video.
  set (w1 := mkWorld _ c l).
  set (wa := snd (deepcopy (VRef 12) w1)).
  set (wb := snd ((if negb (is_empty cookies)
                   then setitem (VRef 13) "cookiefile" (VStr cookies)
                   else ret tt) wa)).
  rewrite (bind_eval _ _ w1 wa (VRef 13)) by (vm_compute; reflexivity).
  rewrite (bind_eval _ _ wa wb tt) by (destruct cookies; vm_compute; reflexivity).
  unfold bind at 1. unfold extract_info at 1. by rewrite He.
Qed.

Lemma download_single_video_result `{E : Engine} (url cookies : string)
    (c : list engine_call) (l : list log_event)
    (r : option (gmap string (option string))) (d : result unit) :
  (forall h y, ydl_extract_info h y url = Ok r) ->
  (forall h y us, ydl_download h y us = d) ->
  fst (download_single_video url (VRef 12) cookies
         (mkWorld (heap initial_world ++ base_objects 1 logger) c l))
  = d.
Proof.
  intros Hr Hd.
  pose proof (download_single_video_eval E url cookies c l r Hr) as He.
  cbv zeta in He. rewrite He. cbn [fst]. apply Hd.
Qed.

(** C5. The exit code of the process is decided by how
    [app(standalone_mode=False)] ends: 0 when it returns, the exception's
    own [exit_code] for a [ClickException], 3 for a [ValueError], 2 for a
    [DownloadError], 1 for any other exception. A usage error ends with
    click's code. A URL that is not a platform URL and a platform URL of
    unrecognized path shape both raise [ValueError] and end with 3. What
    the engine raises reaches the handlers as it is: from the first run of
    the process, a [DownloadError] of the metadata request or of the
    download ends with 2, another exception of the engine with 1, and a
    download that returns ends with 0. *)
Theorem exit_codes :
  (forall (U : UrlLib) (E : Engine) (argv : invocation) (w : world),
     fst (run argv w)
     = match fst (app argv (started w)) with
       | Ok _ => 0%Z
       | Raise (ClickException code _) => code
       | Raise (ValueError _) => 3%Z
       | Raise (DownloadError _) => 2%Z
       | Raise (OtherException _ _) => 1%Z
       end)
  /\ (forall (U : UrlLib) (E : Engine) code message w,
        fst (run (UsageFailure code message) w) = code)
  /\ (forall (U : UrlLib) (E : Engine) url cookies w,
        is_youtube_url url = Ok false ->
        fst (app (Invoke url cookies) (started w))
        = Raise (ValueError ("Not a valid YouTube URL: "
                             +:+ Str.dquote +:+ url +:+ Str.dquote))
        /\ fst (run (Invoke url cookies) w) = 3%Z)
  /\ (forall (U : UrlLib) (E : Engine) url cookies w message,
        is_youtube_url url = Ok true ->
        is_single_video url = Raise (ValueError message) ->
        fst (app (Invoke url cookies) (started w)) = Raise (ValueError message)
        /\ fst (run (Invoke url cookies) w) = 3%Z)
  /\ (forall (U : UrlLib) (E : Engine) url cookies (d : result unit),
        is_youtube_url url = Ok true ->
        is_single_video url = Ok false ->
        (forall h y us, ydl_download h y us = d) ->
        fst (app (Invoke url cookies) (started initial_world)) = d
        /\ fst (run (Invoke url cookies) initial_world)
           = match d with
             | Ok _ => 0%Z
             | Raise (ClickException code _) => code
             | Raise (ValueError _) => 3%Z
             | Raise (DownloadError _) => 2%Z
             | Raise (OtherException _ _) => 1%Z
             end)
  /\ (forall (U : UrlLib) (E : Engine) url cookies r (d : result unit),
        is_youtube_url url = Ok true ->
        is_single_video url = Ok true ->
        (forall h y, ydl_extract_info h y url = Ok r) ->
        (forall h y us, ydl_download h y us = d) ->
        fst (app (Invoke url cookies) (started initial_world)) = d
        /\ fst (run (Invoke url cookies) initial_world)
           = match d with
             | Ok _ => 0%Z
             | Raise (ClickException code _) => code
             | Raise (ValueError _) => 3%Z
             | Raise (DownloadError _) => 2%Z
             | Raise (OtherException _ _) => 1%Z
             end)
  /\ (forall (U : UrlLib) (E : Engine) url cookies message,
        is_youtube_url url = Ok true ->
        is_single_video url = Ok true ->
        (forall h y, ydl_extract_info h y url = Raise (DownloadError message)) ->
        fst (run (Invoke url cookies) initial_world) = 2%Z).
Proof.
  split; [|split; [|split; [|split; [|split; [|split]]]]].
  - intros U E argv w. apply run_exit_code.
  - intros U E code message w. by rewrite run_exit_code.
  - intros U E url cookies w H. rewrite run_exit_code. cbn [app].
    by rewrite main_not_youtube.
  - intros U E url cookies w message H1 H2. rewrite run_exit_code. cbn [app].
    by rewrite (main_structure_error url cookies _ (ValueError message)).
  - intros U E url cookies d H1 H2 Hd. rewrite run_exit_code. cbn [app].
    assert (fst (main url cookies (started initial_world)) = d) as ->; [|done].
    change (started initial_world)
      with (process_world [] [mkEvent INFO "application_started" []]).
    rewrite main_playlist by done.
    pose proof (download_playlist_result url cookies) as Hp. cbv zeta in Hp.
    rewrite Hp. apply Hd.
  - intros U E url cookies r d H1 H2 Hr Hd. rewrite run_exit_code. cbn [app].
    assert (fst (main url cookies (started initial_world)) = d) as ->; [|done].
    change (started initial_world)
      with (process_world [] [mkEvent INFO "application_started" []]).
    rewrite main_single by done.
    by apply download_single_video_result with r.
  - intros U E url cookies message H1 H2 He. rewrite run_exit_code. cbn [app].
    change (started initial_world)
      with (process_world [] [mkEvent INFO "application_started" []]).
    rewrite main_single by done.
    by rewrite (download_single_video_extract_raises url cookies _ _
                  (DownloadError message)).
Qed.

Lemma exit_codes_witness :
  fst (@run cpython engine_download_fails
         (Invoke "https://example.com/watch?v=1" EmptyString) initial_world)
  = 3%Z
  /\ fst (@run cpython engine_download_fails
            (Invoke "https://www.youtube.com/playlist?list=xyz" EmptyString)
            initial_world)
     = 2%Z.
Proof.
  split.
  - apply (proj1 (proj2 (proj2 exit_codes)) cpython engine_download_fails).
    by vm_compute.
  - apply (proj1 (proj2 (proj2 (proj2 (proj2 exit_codes)))) cpython
             engine_download_fails _ _ (Raise (DownloadError "network"))).
    + by vm_compute.
    + by vm_compute.
    + reflexivity.
Defined.

(** ** Subdomains of the short-link host *)

Lemma not_short_link_host (pre : string) :
  pre <> "www" ->
  existsb (String.eqb (pre +:+ ".youtu.be")) short_link_hosts = false.
Proof.
  intros Hpre. apply not_true_iff_false. intros H.
  apply existsb_eqb_In in H. destruct H as [H|[H|[]]].
  - apply (f_equal String.length) in H. rewrite append_length in H.
    simpl in H. lia.
  - apply Hpre. by apply (append_inj_l pre "www" ".youtu.be").
Qed.

(** C9. A host [pre.youtu.be] with [pre] other than [www] passes
    [is_youtube_url] by the dot-suffix test and is none of the two hosts
    of the short-link rule of [is_single_video]. So when its path begins
    with none of [/watch], [/shorts/], [/live/], [/playlist], the
    classifier raises the [ValueError] of the unrecognized structure and
    the process ends with code 3, whatever the engine and the store.
    [https://m.youtu.be/abc123] is such a URL under CPython's parser,
    while the same path on [www.youtu.be] is a single video. *)
Theorem short_link_subdomain_rejected :
  (forall (U : UrlLib) (url : string) (parsed : ParseResult) (pre : string),
     urlparse (ensure_scheme url) = Ok parsed ->
     hostname parsed = Some (pre +:+ ".youtu.be") ->
     pre <> "www" ->
     is_youtube_url url = Ok true
     /\ ~ In (pre +:+ ".youtu.be") ["youtu.be"; "www.youtu.be"]
     /\ (~ (exists p r, In p ["/watch"; "/shorts/"; "/live/"]
                        /\ path parsed = p +:+ r) ->
         ~ (exists r, path parsed = "/playlist" +:+ r) ->
         is_single_video url
         = Raise (ValueError
                    ("Unsupported or invalid YouTube URL structure: "
                     +:+ Str.dquote +:+ ensure_scheme url +:+ Str.dquote))
         /\ forall (E : Engine) (cookies : string) (w : world),
              fst (run (Invoke url cookies) w) = 3%Z))
  /\ is_youtube_url "https://m.youtu.be/abc123" = Ok true
  /\ is_single_video "https://m.youtu.be/abc123"
     = Raise (ValueError
                ("Unsupported or invalid YouTube URL structure: "
                 +:+ Str.dquote +:+ "https://m.youtu.be/abc123" +:+ Str.dquote))
  /\ (forall (E : Engine) (cookies : string) (w : world),
        fst (run (Invoke "https://m.youtu.be/abc123" cookies) w) = 3%Z)
  /\ is_single_video "https://www.youtu.be/abc123" = Ok true.
Proof.
  assert (forall (U : UrlLib) (url : string) (parsed : ParseResult) (pre : string),
     urlparse (ensure_scheme url) = Ok parsed ->
     hostname parsed = Some (pre +:+ ".youtu.be") ->
     pre <> "www" ->
     is_youtube_url url = Ok true
     /\ ~ In (pre +:+ ".youtu.be") short_link_hosts
     /\ (~ (exists p r, In p single_prefixes /\ path parsed = p +:+ r) ->
         ~ (exists r, path parsed = "/playlist" +:+ r) ->
         is_single_video url = Raise (structure_error (ensure_scheme url))
         /\ forall (E : Engine) (cookies : string) (w : world),
              fst (run (Invoke url cookies) w) = 3%Z)) as Hgen.
  { intros U url parsed pre Hparse Hhost Hpre.
    assert (is_youtube_url url = Ok true) as Hyt.
    { rewrite is_youtube_url_eq, Hparse, Hhost. cbn [or_empty]. f_equal.
      apply host_matches_spec. exists "youtu.be".
      split; [simpl; auto|]. right. by exists pre. }
    split; [done|]. split.
    { intros H. apply existsb_eqb_In in H.
      by rewrite not_short_link_host in H. }
    intros Hnp Hnl.
    assert (is_single_video url = Raise (structure_error (ensure_scheme url)))
      as Hsv.
    { rewrite is_single_video_eq, Hparse, Hhost. cbn [or_empty].
      rewrite not_short_link_host by done.
      destruct (existsb (Str.startswith (path parsed)) single_prefixes) eqn:H1.
      { apply existsb_startswith in H1. by destruct Hnp. }
      destruct (Str.startswith (path parsed) "/playlist") eqn:H2; [|done].
      apply startswith_spec in H2. by destruct Hnl. }
    split; [done|]. intros E cookies w.
    rewrite run_exit_code. cbn [app].
    by rewrite (main_structure_error url cookies _ _ Hyt Hsv). }
  split; [exact Hgen|].
  destruct (Hgen cpython "https://m.youtu.be/abc123"
              (mkParseResult "https" "m.youtu.be" "/abc123" "" "" ""
                 (Some "m.youtu.be")) "m")
    as (H1 & _ & H2); [by vm_compute|reflexivity|discriminate|].
  destruct H2 as [H2 H3].
  { intros (p & r & Hp & Hr). cbn [path] in Hr.
    destruct Hp as [<-|[<-|[<-|[]]]]; discriminate. }
  { intros [r Hr]. discriminate. }
  split; [done|]. split; [done|]. split; [done|]. by vm_compute.
Qed.

Lemma short_link_subdomain_rejected_witness :
  is_youtube_url "music.youtu.be/x" = Ok true
  /\ ~ In ("music" +:+ ".youtu.be") ["youtu.be"; "www.youtu.be"].
Proof.
  destruct (proj1 short_link_subdomain_rejected cpython "music.youtu.be/x"
              (mkParseResult "https" "music.youtu.be" "/x" "" "" ""
                 (Some "music.youtu.be")) "music")
    as (H1 & H2 & _); [by vm_compute|reflexivity|discriminate|].
  by split.
Defined.

(** ** The scheme test of [ensure_scheme] against the parser's *)

(** C3, as stated, fails: a URL whose scheme is written in capitals, or
    whose scheme is another one, has a scheme and is not returned
    unchanged; it gets [https://] in front, and its host is then read as
    the scheme name. *)
Lemma ensure_scheme_other_schemes :
  carries_scheme "HTTPS://youtu.be/abc123" = true
  /\ ensure_scheme "HTTPS://youtu.be/abc123" = "https://HTTPS://youtu.be/abc123"
  /\ String.eqb (ensure_scheme "HTTPS://youtu.be/abc123")
       "HTTPS://youtu.be/abc123" = false
  /\ carries_scheme "ftp://example.com/a" = true
  /\ ensure_scheme "ftp://example.com/a" = "https://ftp://example.com/a"
  /\ is_youtube_url "HTTPS://youtu.be/abc123" = Ok false
  /\ is_youtube_url "https://youtu.be/abc123" = Ok true.
Proof. by vm_compute. Qed.

(** * Further properties *)

(** ** Normalization and the classifier *)

Lemma endswith_refl (s : string) : Str.endswith s s = true.
Proof. apply endswith_spec. by exists EmptyString. Qed.

(** X1. The result of [ensure_scheme] always starts with [http://] or
    [https://], ends with the input and is the input or eight characters
    longer. Both classifier functions normalize on their own: a URL and
    its normalized form get the same answer, error text included. *)
Theorem classifier_normalizes (U : UrlLib) (url : string) :
  ((exists r, ensure_scheme url = "http://" +:+ r)
   \/ (exists r, ensure_scheme url = "https://" +:+ r))
  /\ Str.endswith (ensure_scheme url) url = true
  /\ (String.length (ensure_scheme url) = String.length url
      \/ String.length (ensure_scheme url) = 8 + String.length url)
  /\ is_youtube_url (ensure_scheme url) = is_youtube_url url
  /\ is_single_video (ensure_scheme url) = is_single_video url.
Proof.
  assert (ensure_scheme (ensure_scheme url) = ensure_scheme url) as Hidem.
  { unfold ensure_scheme at 1. by rewrite has_scheme_ensure. }
  split; [apply has_scheme_spec, has_scheme_ensure|].
  split.
  { unfold ensure_scheme. destruct (has_scheme url); cbn [negb].
    - apply endswith_refl.
    - apply endswith_spec. by exists "https://". }
  split.
  { unfold ensure_scheme. destruct (has_scheme url); cbn [negb]; [by left|].
    right. by rewrite append_length. }
  split.
  - by rewrite !is_youtube_url_eq, Hidem.
  - by rewrite !is_single_video_eq, Hidem.
Qed.

Lemma playlist_not_single (r : string) :
  existsb (Str.startswith ("/playlist" +:+ r)) single_prefixes = false.
Proof. reflexivity. Qed.

(** X2. [is_single_video] read backwards. It returns true only when the
    host is one of the two short-link hosts or the path begins with a
    single-item prefix; it returns false only when the host is none of
    the two and the path begins with [/playlist]; it raises only the
    parser's own exception or, for an accepted URL of neither shape, the
    [ValueError] that quotes the normalized URL. *)
Theorem is_single_video_inversion (U : UrlLib) (url : string) :
  (is_single_video url = Ok true <->
   exists parsed,
     urlparse (ensure_scheme url) = Ok parsed
     /\ (In (or_empty (hostname parsed)) ["youtu.be"; "www.youtu.be"]
         \/ exists p r, In p ["/watch"; "/shorts/"; "/live/"]
                        /\ path parsed = p +:+ r))
  /\ (is_single_video url = Ok false <->
      exists parsed,
        urlparse (ensure_scheme url) = Ok parsed
        /\ ~ In (or_empty (hostname parsed)) ["youtu.be"; "www.youtu.be"]
        /\ exists r, path parsed = "/playlist" +:+ r)
  /\ (forall e,
        is_single_video url = Raise e <->
        urlparse (ensure_scheme url) = Raise e
        \/ exists parsed,
             urlparse (ensure_scheme url) = Ok parsed
             /\ ~ In (or_empty (hostname parsed)) ["youtu.be"; "www.youtu.be"]
             /\ ~ (exists p r, In p ["/watch"; "/shorts/"; "/live/"]
                               /\ path parsed = p +:+ r)
             /\ ~ (exists r, path parsed = "/playlist" +:+ r)
             /\ e = ValueError
                      ("Unsupported or invalid YouTube URL structure: "
                       +:+ Str.dquote +:+ ensure_scheme url +:+ Str.dquote)).
Proof.
  rewrite is_single_video_eq.
  fold short_link_hosts single_prefixes.
  change (ValueError _) with (structure_error (ensure_scheme url)).
  destruct (urlparse (ensure_scheme url)) as [parsed|e0].
  2:{ split; [|split].
      - split; [done|]. by intros (? & [=] & _).
      - split; [done|]. by intros (? & [=] & _).
      - intros e. split.
        + intros [= ->]. by left.
        + intros [[= ->]|(? & [=] & _)]. done. }
  pose proof (existsb_eqb_In (or_empty (hostname parsed)) short_link_hosts) as Hh.
  pose proof (existsb_startswith (path parsed) single_prefixes) as Hp.
  pose proof (startswith_spec (path parsed) "/playlist") as Hl.
  destruct (existsb (String.eqb (or_empty (hostname parsed))) short_link_hosts).
  { assert (In (or_empty (hostname parsed)) short_link_hosts) as Hin
      by by apply Hh.
    split; [|split].
    - split; [|done]. intros _. exists parsed. split; [done|]. by left.
    - split; [done|]. intros (? & [= <-] & Hn & _). done.
    - intros e. split; [done|].
      intros [[=]|(? & [= <-] & Hn & _)]. done. }
  assert (~ In (or_empty (hostname parsed)) short_link_hosts) as Hnin.
  { intros H. by apply Hh in H. }
  destruct (existsb (Str.startswith (path parsed)) single_prefixes) eqn:Hpe.
  { assert (exists p r, In p single_prefixes /\ path parsed = p +:+ r) as Hex
      by by apply Hp.
    split; [|split].
    - split; [|done]. intros _. exists parsed. split; [done|]. by right.
    - split; [done|]. intros (? & [= <-] & _ & r & Hr).
      rewrite Hr, playlist_not_single in Hpe. done.
    - intros e. split; [done|].
      intros [[=]|(? & [= <-] & _ & Hn & _)]. done. }
  assert (~ (exists p r, In p single_prefixes /\ path parsed = p +:+ r)) as Hnex.
  { intros H. by apply Hp in H. }
  destruct (Str.startswith (path parsed) "/playlist").
  - assert (exists r, path parsed = "/playlist" +:+ r) as Hr by by apply Hl.
    split; [|split].
    + split; [done|]. intros (? & [= <-] & [H|H]); done.
    + split; [|done]. intros _. by exists parsed.
    + intros e. split; [done|].
      intros [[=]|(? & [= <-] & _ & _ & Hn & _)]. done.
  - assert (~ (exists r, path parsed = "/playlist" +:+ r)) as Hnr.
    { intros H. by apply Hl in H. }
    split; [|split].
    + split; [done|]. intros (? & [= <-] & [H|H]); done.
    + split; [done|]. intros (? & [= <-] & _ & H). done.
    + intros e. split.
      * intros [= <-]. right. by exists parsed.
      * intros [[=]|(? & [= <-] & _ & _ & _ & ->)]. done.
Qed.

(** ** The parser model on a URL with a known start *)

Lemma urlparse_netloc (u : string) :
  let u1 := Urllib.remove_unsafe (Str.lstrip_with Urllib.c0_control_or_space u) in
  let sr := Urllib.split_scheme u1 in
  let nr := if Str.startswith (snd sr) "//" then Urllib.splitnetloc (snd sr)
            else (EmptyString, snd sr) in
  xorb (Str.contains_char Urllib.open_bracket (fst nr))
       (Str.contains_char Urllib.close_bracket (fst nr)) = false ->
  exists parsed,
    Urllib.urlparse u = Ok parsed
    /\ scheme parsed = fst sr
    /\ netloc parsed = fst nr
    /\ hostname parsed = Urllib.hostname_of (fst nr).
Proof.
  intros u1 sr nr Hx. unfold Urllib.urlparse, Urllib.urlsplit.
  fold u1. fold sr. destruct sr as [sch u2]. cbn [snd fst] in *.
  fold nr. destruct nr as [nl u3]. cbn [snd fst] in *. rewrite Hx.
  destruct (Str.partition Urllib.hash u3) as [[b1 f1] a1].
  destruct (Str.partition Urllib.question b1) as [[b2 f2] a2].
  cbn [Urllib.s_scheme Urllib.s_path Urllib.s_netloc Urllib.s_query
       Urllib.s_fragment].
  destruct (existsb _ _ && _); [destruct (Urllib.splitparams b2)|];
    eexists; (split; [reflexivity|done]).
Qed.

Lemma remove_char_app (c : ascii) (p r : string) :
  Str.contains_char c p = false ->
  Str.remove_char c (p +:+ r) = p +:+ Str.remove_char c r.
Proof.
  unfold Str.contains_char. induction p as [|a p IH]; [done|].
  cbn [String.append Str.remove_char Str.find].
  destruct (Ascii.eqb a c); [done|].
  intros H. rewrite IH; [done|]. by destruct (Str.find c p).
Qed.

Lemma find_app (c : ascii) (p r : string) (i : nat) :
  Str.find c p = Some i -> Str.find c (p +:+ r) = Some i.
Proof.
  revert i. induction p as [|a p IH]; intros i; [done|].
  cbn [String.append Str.find]. destruct (Ascii.eqb a c); [done|].
  destruct (Str.find c p) as [j|]; [|done]. intros [= <-].
  by rewrite (IH j).
Qed.

Lemma take_app_short (n : nat) (p r : string) :
  n <= String.length p -> Str.take n (p +:+ r) = Str.take n p.
Proof.
  revert n. induction p as [|a p IH]; intros [|n] H; simpl in *; try done; try lia.
  f_equal. apply IH. lia.
Qed.

Lemma drop_app_short (n : nat) (p r : string) :
  n <= String.length p -> Str.drop n (p +:+ r) = Str.drop n p +:+ r.
Proof.
  revert n. induction p as [|a p IH]; intros [|n] H; simpl in *; try done; try lia.
  apply IH. lia.
Qed.

Lemma startswith_app_short (p r q : string) :
  String.length q <= String.length p ->
  Str.startswith (p +:+ r) q = Str.startswith p q.
Proof.
  revert p. induction q as [|b q IH]; intros [|a p] H; simpl in *; try done; try lia.
  f_equal. apply IH. lia.
Qed.

Lemma find_delim_app (p r : string) (i : nat) :
  Urllib.find_delim p = Some i -> Urllib.find_delim (p +:+ r) = Some i.
Proof.
  revert i. induction p as [|a p IH]; intros i; [done|].
  cbn [String.append Urllib.find_delim].
  destruct (_ || _); [done|].
  destruct (Urllib.find_delim p) as [j|]; [|done]. intros [= <-].
  by rewrite (IH j).
Qed.

Lemma split_scheme_app (p r : string) (i : nat) :
  Str.find Urllib.colon p = Some i ->
  Urllib.split_scheme (p +:+ r)
  = (fst (Urllib.split_scheme p), snd (Urllib.split_scheme p) +:+ r)
  \/ fst (Urllib.split_scheme p) = EmptyString.
Proof.
  intros Hf. unfold Urllib.split_scheme. rewrite (find_app _ _ _ _ Hf), Hf.
  destruct i as [|i]; [by right|].
  destruct p as [|a p]; [done|]. cbn [String.append].
  change (String a (p +:+ r)) with (String a p +:+ r).
  assert (S i < String.length (String a p)) as Hlen.
  { clear -Hf. revert i Hf. generalize (String a p). intros s.
    induction s as [|b s IH]; intros i; [done|]. cbn [Str.find String.length].
    destruct (Ascii.eqb b Urllib.colon); [intros [=]|].
    destruct (Str.find Urllib.colon s) as [j|] eqn:Hj; [|done]. intros [= <-].
    destruct j as [|j].
    - destruct s; [done|]. simpl. lia.
    - specialize (IH j eq_refl). lia. }
  rewrite take_app_short by lia. rewrite drop_app_short by lia.
  destruct (_ && _); [by left|by right].
Qed.

Lemma known_start_parse (p sch nl rest : string) :
  known_start p = Some (sch, nl) ->
  exists parsed,
    Urllib.urlparse (p +:+ rest) = Ok parsed
    /\ scheme parsed = sch
    /\ netloc parsed = nl
    /\ hostname parsed = Urllib.hostname_of nl.
Proof.
  unfold known_start. destruct p as [|a p0]; [done|].
  set (p := String a p0).
  destruct (Str.find Urllib.colon p) as [i|] eqn:Hc; [|done].
  destruct (Urllib.find_delim (Str.drop 2 (snd (Urllib.split_scheme p))))
    as [j|] eqn:Hd; [|done].
  destruct (_ && _) eqn:Hb; [|done]. intros [= <- <-].
  repeat (apply andb_true_iff in Hb as [Hb ?]).
  repeat match goal with H : negb _ = true |- _ =>
    apply negb_true_iff in H end.
  set (rest' := Urllib.remove_unsafe rest).
  assert (Urllib.remove_unsafe
            (Str.lstrip_with Urllib.c0_control_or_space (p +:+ rest))
          = p +:+ rest') as Hu.
  { subst p. cbn [String.append Str.lstrip_with]. rewrite Hb.
    change (String a (p0 +:+ rest)) with (String a p0 +:+ rest).
    unfold Urllib.remove_unsafe. by rewrite !remove_char_app. }
  assert (Urllib.split_scheme (p +:+ rest')
          = (fst (Urllib.split_scheme p), snd (Urllib.split_scheme p) +:+ rest'))
    as Hs.
  { destruct (split_scheme_app p rest' i Hc) as [Hs|Hs]; [done|].
    rewrite Hs in *. done. }
  assert (2 <= String.length (snd (Urllib.split_scheme p))) as Hlen.
  { match goal with H : Str.startswith _ "//" = true |- _ =>
      destruct (proj1 (startswith_spec _ _) H) as [r Hr] end.
    rewrite Hr. cbn [String.append String.length]. lia. }
  assert (j <= String.length (Str.drop 2 (snd (Urllib.split_scheme p)))) as Hj.
  { clear -Hd. revert j Hd.
    generalize (Str.drop 2 (snd (Urllib.split_scheme p))). intros s.
    induction s as [|b s IH]; intros j; [done|].
    cbn [Urllib.find_delim String.length]. destruct (_ || _); [intros [= <-]; lia|].
    destruct (Urllib.find_delim s) as [k|]; [|done]. intros [= <-].
    specialize (IH k eq_refl). lia. }
  pose proof (urlparse_netloc (p +:+ rest)) as Hn. cbv zeta in Hn.
  rewrite Hu, Hs in Hn. cbn [fst snd] in Hn.
  rewrite startswith_app_short in Hn by done.
  match goal with H : Str.startswith _ "//" = true |- _ => rewrite H in Hn end.
  unfold Urllib.splitnetloc in Hn.
  rewrite drop_app_short in Hn by done.
  rewrite (find_delim_app _ _ _ Hd) in Hn. cbn [fst snd] in Hn.
  rewrite take_app_short in Hn by done.
  by apply Hn.
Qed.



Lemma host_char_not (c : ascii) (h : string) :
  host_char c = false -> Str.all_chars host_char h = true ->
  Str.find c h = None.
Proof.
  intros Hc. induction h as [|a h IH]; [done|].
  cbn [Str.all_chars Str.find]. intros H. apply andb_true_iff in H as [Ha Hh].
  destruct (Ascii.eqb a c) eqn:Hac.
  - apply Ascii.eqb_eq in Hac. congruence.
  - by rewrite IH.
Qed.

Lemma host_char_rfind (c : ascii) (h : string) :
  host_char c = false -> Str.all_chars host_char h = true ->
  Str.rfind c h = None.
Proof.
  intros Hc. induction h as [|a h IH]; [done|].
  cbn [Str.all_chars Str.rfind]. intros H. apply andb_true_iff in H as [Ha Hh].
  rewrite IH by done. destruct (Ascii.eqb a c) eqn:Hac; [|done].
  apply Ascii.eqb_eq in Hac. congruence.
Qed.

Lemma find_app_none (c : ascii) (p r : string) :
  Str.find c p = None ->
  Str.find c (p +:+ r) = (fun i => String.length p + i) <$> Str.find c r.
Proof.
  induction p as [|a p IH]; cbn [String.append Str.find String.length].
  - intros _. by destruct (Str.find c r).
  - destruct (Ascii.eqb a c); [done|].
    destruct (Str.find c p); [done|]. intros _. rewrite IH by done.
    by destruct (Str.find c r).
Qed.

Lemma host_find_delim (h r : string) :
  Str.all_chars host_char h = true ->
  Urllib.find_delim (h +:+ String Urllib.slash r) = Some (String.length h).
Proof.
  induction h as [|a h IH]; [done|].
  cbn [Str.all_chars String.append Urllib.find_delim String.length].
  intros H. apply andb_true_iff in H as [Ha Hh]. rewrite IH by done.
  assert (Ascii.eqb a Urllib.slash || Ascii.eqb a Urllib.question
          || Ascii.eqb a Urllib.hash = false) as ->; [|done].
  apply not_true_iff_false. intros H.
  repeat (apply orb_true_iff in H as [H|H]);
    apply Ascii.eqb_eq in H; by subst a.
Qed.

Lemma take_length_app (h r : string) : Str.take (String.length h) (h +:+ r) = h.
Proof. induction h as [|a h IH]; simpl; [by destruct r|by rewrite IH]. Qed.

Lemma host_lower (h : string) :
  Str.all_chars host_char h = true -> Str.lower h = h.
Proof.
  induction h as [|a h IH]; [done|]. cbn [Str.all_chars Str.lower].
  intros H. apply andb_true_iff in H as [Ha Hh]. rewrite IH by done. f_equal.
  unfold Str.lower_char.
  assert (Str.is_upper (Str.code a) = false) as ->; [|done].
  unfold host_char, Str.is_digit, Str.is_upper in *.
  destruct (Str.code a) as [|n] eqn:Hn; [done|].
  apply not_true_iff_false. intros H.
  repeat (apply orb_true_iff in Ha as [Ha|Ha]);
    repeat (apply orb_true_iff in H as [H|H]);
    repeat (match goal with
            | H : _ && _ = true |- _ => apply andb_true_iff in H as [? ?]
            | H : negb _ = true |- _ => apply negb_true_iff in H
            | H : (_ <=? _) = true |- _ => apply Nat.leb_le in H
            | H : (_ =? _) = true |- _ => apply Nat.eqb_eq in H
            end); lia.
Qed.

Lemma append_empty_r (s : string) : s +:+ EmptyString = s.
Proof. induction s as [|a s IH]; simpl; [done|by rewrite IH]. Qed.

Lemma host_hostname_of (h : string) :
  Str.all_chars host_char h = true -> h <> EmptyString ->
  Urllib.hostname_of h = Some h.
Proof.
  intros Hh Hne. unfold Urllib.hostname_of, Str.rpartition, Str.partition.
  rewrite (host_char_rfind Urllib.at_sign h) by done.
  rewrite (host_char_not Urllib.open_bracket h) by done.
  rewrite (host_char_not Urllib.colon h) by done.
  destruct h as [|a h]; [done|].
  rewrite (host_char_not Urllib.percent (String a h)) by done.
  rewrite host_lower by done. by rewrite !append_empty_r.
Qed.

Lemma contains_char_app (c : ascii) (a b : string) :
  Str.contains_char c (a +:+ b)
  = Str.contains_char c a || Str.contains_char c b.
Proof.
  unfold Str.contains_char. induction a as [|x a IH]; [done|].
  cbn [String.append Str.find]. destruct (Ascii.eqb x c); [done|].
  destruct (Str.find c (a +:+ b)), (Str.find c a), (Str.find c b); done.
Qed.

Lemma host_contains_char (c : ascii) (h : string) :
  host_char c = false -> Str.all_chars host_char h = true ->
  Str.contains_char c h = false.
Proof. intros Hc Hh. unfold Str.contains_char. by rewrite host_char_not. Qed.

Lemma known_start_intro (p sch s2 nl : string) (a : ascii) (p0 : string)
    (i j : nat) :
  p = String a p0 ->
  Urllib.c0_control_or_space a = false ->
  Str.contains_char (ascii_of_nat 9) p = false ->
  Str.contains_char (ascii_of_nat 13) p = false ->
  Str.contains_char (ascii_of_nat 10) p = false ->
  Str.find Urllib.colon p = Some i ->
  Urllib.split_scheme p = (sch, s2) ->
  is_empty sch = false ->
  Str.startswith s2 "//" = true ->
  Urllib.find_delim (Str.drop 2 s2) = Some j ->
  Str.take j (Str.drop 2 s2) = nl ->
  Str.contains_char Urllib.open_bracket nl = false ->
  Str.contains_char Urllib.close_bracket nl = false ->
  known_start p = Some (sch, nl).
Proof.
  intros Hp Ha H9 H13 H10 Hi Hs He Hss Hj Hnl Ho Hc. unfold known_start.
  rewrite Hi, Hs. cbn [fst snd]. rewrite Hj, Hnl, H9, H13, H10, He, Hss, Ho, Hc.
  rewrite Hp at 1. by rewrite Ha.
Qed.

Lemma host_known_start (h : string) :
  Str.all_chars host_char h = true ->
  known_start ("https://" +:+ (h +:+ "/")) = Some ("https", h)
  /\ known_start ("http://" +:+ (h +:+ "/")) = Some ("http", h).
Proof.
  intros Hh.
  assert (forall r, Urllib.find_delim (h +:+ String Urllib.slash r)
                    = Some (String.length h)) as Hd
    by (intros; by apply host_find_delim).
  split.
  - eapply (known_start_intro _ "https" ("//" +:+ (h +:+ "/")) h _ _ 5).
    + reflexivity.
    + reflexivity.
    + rewrite !contains_char_app, (host_contains_char _ h) by done; reflexivity.
    + rewrite !contains_char_app, (host_contains_char _ h) by done; reflexivity.
    + rewrite !contains_char_app, (host_contains_char _ h) by done; reflexivity.
    + by apply (find_app _ "https:").
    + destruct (split_scheme_app "https:" ("//" +:+ (h +:+ "/")) 5 eq_refl)
        as [H|H]; [exact H|done].
    + reflexivity.
    + reflexivity.
    + apply (Hd EmptyString).
    + apply take_length_app.
    + by apply host_contains_char.
    + by apply host_contains_char.
  - eapply (known_start_intro _ "http" ("//" +:+ (h +:+ "/")) h _ _ 4).
    + reflexivity.
    + reflexivity.
    + rewrite !contains_char_app, (host_contains_char _ h) by done; reflexivity.
    + rewrite !contains_char_app, (host_contains_char _ h) by done; reflexivity.
    + rewrite !contains_char_app, (host_contains_char _ h) by done; reflexivity.
    + by apply (find_app _ "http:").
    + destruct (split_scheme_app "http:" ("//" +:+ (h +:+ "/")) 4 eq_refl)
        as [H|H]; [exact H|done].
    + reflexivity.
    + reflexivity.
    + apply (Hd EmptyString).
    + apply take_length_app.
    + by apply host_contains_char.
    + by apply host_contains_char.
Qed.

Lemma find_host_slash (c : ascii) (h rest : string) :
  host_char c = false -> Str.all_chars host_char h = true ->
  Str.find c (h +:+ "/" +:+ rest)
  = (fun i => String.length h + i) <$> Str.find c ("/" +:+ rest).
Proof. intros Hc Hh. apply find_app_none. by apply host_char_not. Qed.

Lemma host_no_scheme (h rest : string) :
  Str.all_chars host_char h = true ->
  has_scheme (h +:+ "/" +:+ rest) = false.
Proof.
  intros Hh. apply not_true_iff_false. intros H.
  pose proof (find_host_slash Urllib.colon h rest eq_refl Hh) as Hc.
  pose proof (find_host_slash Urllib.slash h rest eq_refl Hh) as Hs.
  change (Str.find Urllib.slash ("/" +:+ rest)) with (Some 0) in Hs.
  cbn [fmap option_fmap option_map] in Hs.
  apply has_scheme_spec in H as [[r Hr]|[r Hr]]; rewrite Hr in Hc, Hs.
  - change (Str.find Urllib.colon ("http://" +:+ r)) with (Some 4) in Hc.
    change (Str.find Urllib.slash ("http://" +:+ r)) with (Some 5) in Hs.
    injection Hs as Hs.
    destruct (Str.find Urllib.colon ("/" +:+ rest)) as [k|]; [|done].
    injection Hc as Hc. lia.
  - change (Str.find Urllib.colon ("https://" +:+ r)) with (Some 5) in Hc.
    change (Str.find Urllib.slash ("https://" +:+ r)) with (Some 6) in Hs.
    injection Hs as Hs.
    destruct (Str.find Urllib.colon ("/" +:+ rest)) as [k|]; [|done].
    injection Hc as Hc. lia.
Qed.

(** X3. With CPython's parser, a URL that starts with a plain host name
    (small letters, digits, [-], [.]) and a slash is judged by that host
    alone, with or without [http://] or [https://] in front: whatever
    follows the slash, [is_youtube_url] answers the domain test on the
    host, and on the two short-link hosts [is_single_video] answers true
    (the comment of line 231). Nothing in the path or the query can make
    another site's URL a platform URL. *)
Theorem host_decides (h rest pre : string) :
  Str.all_chars host_char h = true ->
  h <> EmptyString ->
  In pre [EmptyString; "https://"; "http://"] ->
  is_youtube_url (pre +:+ h +:+ "/" +:+ rest)
  = Ok (existsb
          (fun domain => String.eqb h domain || Str.endswith h ("." +:+ domain))
          ["youtube.com"; "youtu.be"])
  /\ (In h ["youtu.be"; "www.youtu.be"] ->
      is_single_video (pre +:+ h +:+ "/" +:+ rest) = Ok true).
Proof.
  intros Hh Hne Hpre.
  assert (exists p sch,
            ensure_scheme (pre +:+ h +:+ "/" +:+ rest) = p +:+ rest
            /\ known_start p = Some (sch, h)) as (p & sch & Hens & Hks).
  { destruct (host_known_start h Hh) as [Hs Hp].
    destruct Hpre as [<-|[<-|[<-|[]]]].
    - exists ("https://" +:+ (h +:+ "/")), "https". split; [|done].
      change (EmptyString +:+ h +:+ "/" +:+ rest) with (h +:+ "/" +:+ rest).
      unfold ensure_scheme. rewrite host_no_scheme by done. cbn [negb].
      by rewrite !append_assoc.
    - exists ("https://" +:+ (h +:+ "/")), "https". split; [|done].
      assert (ensure_scheme ("https://" +:+ h +:+ "/" +:+ rest)
              = "https://" +:+ h +:+ "/" +:+ rest) as -> by reflexivity.
      by rewrite !append_assoc.
    - exists ("http://" +:+ (h +:+ "/")), "http". split; [|done].
      assert (ensure_scheme ("http://" +:+ h +:+ "/" +:+ rest)
              = "http://" +:+ h +:+ "/" +:+ rest) as -> by reflexivity.
      by rewrite !append_assoc. }
  destruct (known_start_parse p sch h rest Hks) as (parsed & Hp & _ & _ & Hhost).
  rewrite host_hostname_of in Hhost by done.
  rewrite is_youtube_url_eq, is_single_video_eq, Hens.
  change (urlparse ?x) with (Urllib.urlparse x). rewrite Hp, Hhost.
  cbn [or_empty]. split; [done|].
  intros Hin. apply existsb_eqb_In in Hin.
  unfold short_link_hosts. by rewrite Hin.
Qed.

Lemma host_decides_witness :
  is_youtube_url ("music.youtube.com" +:+ "/" +:+ "watch?v=1") = Ok true
  /\ is_single_video ("http://" +:+ "youtu.be" +:+ "/" +:+ "playlist?list=x")
     = Ok true.
Proof.
  split.
  - destruct (host_decides "music.youtube.com" "watch?v=1" EmptyString)
      as [H _]; [reflexivity|discriminate|by left|exact H].
  - destruct (host_decides "youtu.be" "playlist?list=x" "http://")
      as [_ H]; [reflexivity|discriminate|right; right; by left|].
    apply H. by left.
Defined.

(** ** The log adapter, further *)

Lemma lstrip_fixed (p : ascii -> bool) (a : ascii) (s : string) :
  p a = false -> Str.lstrip_with p (String a s) = String a s.
Proof. intros H. cbn [Str.lstrip_with]. by rewrite H. Qed.

Lemma lstrip_head (p : ascii -> bool) (s : string) :
  Str.lstrip_with p s = EmptyString
  \/ exists a r, Str.lstrip_with p s = String a r /\ p a = false.
Proof.
  induction s as [|a s IH]; [by left|]. cbn [Str.lstrip_with].
  destruct (p a) eqn:Ha; [done|]. right. by exists a, s.
Qed.

Lemma rstrip_head (p : ascii -> bool) (a : ascii) (s : string) :
  p a = false -> exists r, Str.rstrip_with p (String a s) = String a r.
Proof.
  intros Ha. cbn [Str.rstrip_with]. rewrite Ha.
  destruct (Str.rstrip_with p s); eauto.
Qed.

Lemma rstrip_idem (p : ascii -> bool) (s : string) :
  Str.rstrip_with p (Str.rstrip_with p s) = Str.rstrip_with p s.
Proof.
  induction s as [|a s IH]; [done|]. cbn [Str.rstrip_with].
  destruct (Str.rstrip_with p s) as [|b r] eqn:Hr.
  - destruct (p a) eqn:Ha; [done|]. cbn [Str.rstrip_with]. by rewrite Ha.
  - cbn [Str.rstrip_with] in *.
    destruct (Str.rstrip_with p r) as [|c r'] eqn:Hr'.
    + destruct (p b) eqn:Hb; [done|]. by injection IH as <-.
    + by rewrite IH.
Qed.

Lemma strip_idem (s : string) : Str.strip (Str.strip s) = Str.strip s.
Proof.
  unfold Str.strip.
  destruct (lstrip_head Str.isspace s) as [->|(a & r & -> & Ha)]; [done|].
  destruct (rstrip_head Str.isspace a r Ha) as [r' Hr']. rewrite Hr'.
  rewrite lstrip_fixed by done. rewrite <- Hr'. apply rstrip_idem.
Qed.

Lemma strip_nonblank (a : ascii) (s : string) :
  Str.isspace a = false -> is_empty (Str.strip (String a s)) = false.
Proof.
  intros Ha. unfold Str.strip. rewrite lstrip_fixed by done.
  by destruct (rstrip_head Str.isspace a s Ha) as [r ->].
Qed.

Lemma strip_blank (ws : string) :
  Str.all_chars Str.isspace ws = true -> Str.strip ws = EmptyString.
Proof.
  intros H. unfold Str.strip.
  assert (Str.lstrip_with Str.isspace ws = EmptyString) as ->; [|done].
  induction ws as [|a ws IH]; [done|]. cbn [Str.all_chars Str.lstrip_with] in *.
  apply andb_true_iff in H as [-> H]. by apply IH.
Qed.

(** X4. The debug channel. A line that is blank after trimming emits
    nothing. A line that starts with [[debug]] emits one debug-level event
    [yt_dlp_debug] whose detail is what follows the marker, trimmed; such
    a line is never blank. Any other line emits one info-level event
    [yt_dlp_info] with the whole line trimmed as detail, also when the
    marker stands further in, as after a leading blank. *)
Theorem adapter_debug (msg : string) (sink : list log_event) :
  (Str.strip msg = EmptyString -> YtDlpStructlogAdapter.debug msg sink = sink)
  /\ (forall rest,
        msg = "[debug]" +:+ rest ->
        YtDlpStructlogAdapter.debug msg sink
        = sink ++ [mkEvent DEBUG "yt_dlp_debug" [("detail", Str.strip rest)]])
  /\ (Str.strip msg <> EmptyString ->
      Str.startswith msg "[debug]" = false ->
      YtDlpStructlogAdapter.debug msg sink
      = sink ++ [mkEvent INFO "yt_dlp_info" [("detail", Str.strip msg)]])
  /\ (forall rest,
        msg = " [debug]" +:+ rest ->
        YtDlpStructlogAdapter.debug msg sink
        = sink ++ [mkEvent INFO "yt_dlp_info"
                     [("detail", Str.strip ("[debug]" +:+ rest))]]).
Proof.
  unfold YtDlpStructlogAdapter.debug. split; [|split; [|split]].
  - by intros ->.
  - intros rest ->.
    change (is_empty (Str.strip ("[debug]" +:+ rest)))
      with (is_empty (Str.strip (String "[" ("debug]" +:+ rest)))).
    rewrite strip_nonblank by reflexivity.
    rewrite startswith_app. by rewrite remove_first_leading.
  - intros Hne ->. by destruct (Str.strip msg).
  - intros rest ->.
    assert (Str.strip (" [debug]" +:+ rest) = Str.strip ("[debug]" +:+ rest))
      as -> by reflexivity.
    change (is_empty (Str.strip ("[debug]" +:+ rest)))
      with (is_empty (Str.strip (String "[" ("debug]" +:+ rest)))).
    by rewrite strip_nonblank by reflexivity.
Qed.

Lemma adapter_debug_witness :
  YtDlpStructlogAdapter.debug "[debug] some detail" []
  = [mkEvent DEBUG "yt_dlp_debug" [("detail", "some detail")]]
  /\ YtDlpStructlogAdapter.debug "plain info" []
     = [mkEvent INFO "yt_dlp_info" [("detail", "plain info")]].
Proof.
  split.
  - apply (proj1 (proj2 (adapter_debug "[debug] some detail" []))
             " some detail").
    reflexivity.
  - apply (proj1 (proj2 (proj2 (adapter_debug "plain info" [])))).
    + discriminate.
    + reflexivity.
Defined.

(** X5. Whatever the line, each of the three channels leaves the events
    already received as they are and adds at most one; the event it adds
    carries one field, [detail], and its text has no white space left at
    either end: trimming it again changes nothing. *)
Theorem adapter_details_trimmed (msg : string) (sink : list log_event) :
  let one_trimmed (after : list log_event) :=
    after = sink
    \/ exists l name d,
         after = sink ++ [mkEvent l name [("detail", d)]]
         /\ Str.strip d = d in
  one_trimmed (YtDlpStructlogAdapter.debug msg sink)
  /\ one_trimmed (YtDlpStructlogAdapter.warning msg sink)
  /\ one_trimmed (YtDlpStructlogAdapter.error msg sink).
Proof.
  cbv zeta.
  unfold YtDlpStructlogAdapter.debug, YtDlpStructlogAdapter.warning,
    YtDlpStructlogAdapter.error.
  destruct (is_empty (Str.strip msg)); [by repeat split; left|].
  split; [|split].
  - destruct (Str.startswith msg "[debug]"); right;
      do 3 eexists; (split; [reflexivity|apply strip_idem]).
  - right. do 3 eexists. split; [reflexivity|apply strip_idem].
  - right. do 3 eexists. split; [reflexivity|apply strip_idem].
Qed.

(** X6. A line made of the marker and white space only is not blank for
    the adapter, which tests blankness before it removes the marker: the
    event is emitted, with an empty detail. *)
Theorem adapter_marker_only (ws : string) (sink : list log_event) :
  Str.all_chars Str.isspace ws = true ->
  YtDlpStructlogAdapter.warning ("WARNING:" +:+ ws) sink
  = sink ++ [mkEvent WARNING "yt_dlp_warning" [("detail", EmptyString)]]
  /\ YtDlpStructlogAdapter.error ("ERROR:" +:+ ws) sink
     = sink ++ [mkEvent ERROR "yt_dlp_error" [("detail", EmptyString)]]
  /\ YtDlpStructlogAdapter.debug ("[debug]" +:+ ws) sink
     = sink ++ [mkEvent DEBUG "yt_dlp_debug" [("detail", EmptyString)]].
Proof.
  intros Hws.
  unfold YtDlpStructlogAdapter.debug, YtDlpStructlogAdapter.warning,
    YtDlpStructlogAdapter.error.
  change (is_empty (Str.strip ("WARNING:" +:+ ws)))
    with (is_empty (Str.strip (String "W" ("ARNING:" +:+ ws)))).
  change (is_empty (Str.strip ("ERROR:" +:+ ws)))
    with (is_empty (Str.strip (String "E" ("RROR:" +:+ ws)))).
  change (is_empty (Str.strip ("[debug]" +:+ ws)))
    with (is_empty (Str.strip (String "[" ("debug]" +:+ ws)))).
  rewrite !strip_nonblank by reflexivity.
  rewrite startswith_app, !remove_first_leading. by rewrite strip_blank.
Qed.

Lemma adapter_marker_only_witness :
  YtDlpStructlogAdapter.warning ("WARNING:" +:+ "  ") []
  = [mkEvent WARNING "yt_dlp_warning" [("detail", EmptyString)]].
Proof. apply (adapter_marker_only "  " []). reflexivity. Defined.

(** ** The single-video download, further *)

(** X7. In the process, for every answer of the metadata request,
    [download_single_video] works on a new deep copy of the base
    configuration, asks the engine for the metadata and then for the
    download of the one URL, both on the copy, logs nothing itself, and
    returns what the download returns. The template it writes under
    [outtmpl], [default] of the copy is the author label, then
    [ - %(title)s.%(ext)s]; with no metadata the label is
    [Unknown Author]. The base configuration keeps its empty template,
    and [cookiefile] is in the copy exactly when a cookies path is given. *)
Theorem download_single_video_steps
    (E : Engine) (url cookies : string)
    (c : list engine_call) (l : list log_event)
    (r : option (gmap string (option string))) :
  (forall h y, ydl_extract_info h y url = Ok r) ->
  exists (b a t t0 : addr) (w1 : world),
    get_base_ydl_params logger (process_world c l) = (Ok (VRef b), w1)
    /\ length (heap w1) <= a
    /\ let w2 := snd (download_single_video url (VRef b) cookies w1) in
       fst (download_single_video url (VRef b) cookies w1)
       = ydl_download (heap w2) (VRef a) [url]
       /\ calls w2 = c ++ [ExtractInfo (VRef a) url; Download (VRef a) [url]]
       /\ log w2 = l
       /\ getitem (VRef a) "outtmpl" w2 = (Ok (VRef t), w2)
       /\ getitem (VRef t) "default" w2
          = (Ok (VStr (derive_author (default ∅ r) +:+ " - %(title)s.%(ext)s")),
             w2)
       /\ (r = None ->
           getitem (VRef t) "default" w2
           = (Ok (VStr "Unknown Author - %(title)s.%(ext)s"), w2))
       /\ getitem (VRef b) "outtmpl" w2 = (Ok (VRef t0), w2)
       /\ t0 <> t
       /\ getitem (VRef t0) "default" w2 = (Ok (VStr ""), w2)
       /\ (cookies = EmptyString ->
           fst (getitem (VRef a) "cookiefile" w2)
           = Raise (OtherException "KeyError" "cookiefile"))
       /\ (cookies <> EmptyString ->
           getitem (VRef a) "cookiefile" w2 = (Ok (VStr cookies), w2)).
Proof.
  intros Hr. exists 12, 13, 15, 2. eexists.
  split; [apply process_base_eval|]. split; [simpl; lia|].
  pose proof (download_single_video_eval E url cookies c l r Hr) as He.
  cbv zeta in He. cbv zeta. rewrite He. clear He.
  assert (r = None -> derive_author (default ∅ r) = "Unknown Author") as Hnone.
  { by intros ->. }
  revert Hnone. generalize (derive_author (default ∅ r)). intros author Hnone.
  split; [destruct cookies; vm_compute; reflexivity|].
  split.
  { transitivity ((c ++ [ExtractInfo (VRef 13) url]) ++ [Download (VRef 13) [url]]);
      [destruct cookies; vm_compute; reflexivity|by rewrite <- app_assoc]. }
  split; [destruct cookies; vm_compute; reflexivity|].
  split; [destruct cookies; vm_compute; reflexivity|].
  split; [destruct cookies; vm_compute; reflexivity|].
  split.
  { intros Hn. rewrite (Hnone Hn). destruct cookies; vm_compute; reflexivity. }
  split; [destruct cookies; vm_compute; reflexivity|].
  split; [lia|].
  split; [destruct cookies; vm_compute; reflexivity|].
  split.
  - intros ->. vm_compute. reflexivity.
  - intros Hne. destruct cookies as [|ch cookies]; [congruence|].
    vm_compute. reflexivity.
Qed.

Lemma download_single_video_steps_witness :
  exists (b t : addr) (w1 : world),
    get_base_ydl_params logger (process_world [] []) = (Ok (VRef b), w1)
    /\ fst (getitem (VRef t) "default"
              (snd (@download_single_video engine_no_metadata "youtu.be/abc"
                      (VRef b) EmptyString w1)))
       = Ok (VStr "Unknown Author - %(title)s.%(ext)s").
Proof.
  destruct (download_single_video_steps engine_no_metadata "youtu.be/abc"
              EmptyString [] [] None)
    as (b & a & t & t0 & w1 & Hb & _ & _ & _ & _ & _ & _ & Ht & _).
  - reflexivity.
  - exists b, t, w1. split; [exact Hb|]. by rewrite Ht.
Defined.

Lemma download_single_video_extract_raises_eval `{E : Engine}
    (url cookies : string) (c : list engine_call) (l : list log_event)
    (e : exn) :
  (forall h y, ydl_extract_info h y url = Raise e) ->
  let w1 := mkWorld (heap initial_world ++ base_objects 1 logger) c l in
  let wb := snd ((if negb (is_empty cookies)
                  then setitem (VRef 13) "cookiefile" (VStr cookies)
                  else ret tt) (snd (deepcopy (VRef 12) w1))) in
  download_single_video url (VRef 12) cookies w1
  = (Raise e, mkWorld (heap wb) (calls wb ++ [ExtractInfo (VRef 13) url]) (log wb)).
Proof.
  intros He w1 wb. unfold download_single_video.
  set (wa := snd (deepcopy (VRef 12) w1)).
  rewrite (bind_eval _ _ w1 wa (VRef 13)) by (vm_compute; reflexivity).
  rewrite (bind_eval _ _ wa wb tt) by (destruct cookies; vm_compute; reflexivity).
  unfold bind at 1. unfold extract_info at 1. by rewrite He.
Qed.

(** X8. When the metadata request raises, [download_single_video] raises
    the same exception at once: the engine is not asked to download, the
    only thing asked of it is the metadata, the copy keeps the empty
    template of the base configuration, and no object that existed is
    touched. The exception is not turned into empty metadata. *)
Theorem download_single_video_metadata_failure
    (E : Engine) (url cookies : string)
    (c : list engine_call) (l : list log_event) (e : exn) :
  (forall h y, ydl_extract_info h y url = Raise e) ->
  exists (b a t : addr) (w1 : world),
    get_base_ydl_params logger (process_world c l) = (Ok (VRef b), w1)
    /\ let w2 := snd (download_single_video url (VRef b) cookies w1) in
       fst (download_single_video url (VRef b) cookies w1) = Raise e
       /\ calls w2 = c ++ [ExtractInfo (VRef a) url]
       /\ log w2 = l
       /\ getitem (VRef a) "outtmpl" w2 = (Ok (VRef t), w2)
       /\ getitem (VRef t) "default" w2 = (Ok (VStr ""), w2)
       /\ forall x o, heap w1 !! x = Some o -> heap w2 !! x = Some o.
Proof.
  intros He. exists 12, 13, 15. eexists.
  split; [apply process_base_eval|].
  pose proof (download_single_video_extract_raises_eval url cookies c l e He)
    as Hev.
  cbv zeta in Hev. cbv zeta.
  split; [by rewrite Hev|].
  split; [rewrite Hev; destruct cookies; vm_compute; reflexivity|].
  split; [rewrite Hev; destruct cookies; vm_compute; reflexivity|].
  split; [rewrite Hev; destruct cookies; vm_compute; reflexivity|].
  split; [rewrite Hev; destruct cookies; vm_compute; reflexivity|].
  intros x o. apply respects_old_objects. intros n.
  apply respects_download_single_video.
Qed.

Lemma download_single_video_metadata_failure_witness :
  exists (b : addr) (w1 : world),
    get_base_ydl_params logger (process_world [] []) = (Ok (VRef b), w1)
    /\ fst (@download_single_video engine_metadata_fails "youtu.be/abc"
              (VRef b) EmptyString w1)
       = Raise (DownloadError "private video").
Proof.
  destruct (download_single_video_metadata_failure engine_metadata_fails
              "youtu.be/abc" EmptyString [] [] (DownloadError "private video"))
    as (b & a & t & w1 & Hb & Hr & _).
  - reflexivity.
  - exists b, w1. split; [exact Hb|exact Hr].
Defined.

(** ** Runs that end before the engine is asked anything *)

(** X9. A run that fails before the download leaves the engine alone and,
    up to the classification, the store as well; its log is the start
    event, then what [main] logged, then the one event of the handler. A
    usage error logs [cli_error] and ends with click's code. A URL that
    is not a platform URL logs [invalid_url] and [validation_error] and
    ends with 3. A URL the parser rejects is not logged as [invalid_url]:
    the parser's exception goes to the handlers as it is. A platform URL
    of unrecognized shape ends after the base configuration was built,
    still without a call to the engine. With CPython's parser, a URL with
    an unmatched bracket in its host ends with 3 in this way. *)
Theorem rejected_runs (U : UrlLib) (E : Engine) (w : world) :
  (forall code message,
     run (UsageFailure code message) w
     = (code,
        mkWorld (heap w) (calls w)
          (log w ++ [mkEvent INFO "application_started" [];
                     mkEvent ERROR "cli_error" [("error", message)]])))
  /\ (forall url cookies,
        is_youtube_url url = Ok false ->
        run (Invoke url cookies) w
        = (3%Z,
           mkWorld (heap w) (calls w)
             (log w ++ [mkEvent INFO "application_started" [];
                        mkEvent ERROR "invalid_url" [("url", url)];
                        mkEvent ERROR "validation_error"
                          [("error",
                            "Not a valid YouTube URL: "
                            +:+ Str.dquote +:+ url +:+ Str.dquote)]])))
  /\ (forall url cookies e,
        is_youtube_url url = Raise e ->
        run (Invoke url cookies) w
        = (snd (handle e),
           mkWorld (heap w) (calls w)
             (log w ++ [mkEvent INFO "application_started" [];
                        mkEvent (fst (fst (handle e))) (snd (fst (handle e)))
                          [("error", exn_text e)]])))
  /\ (forall url cookies e,
        is_youtube_url url = Ok true ->
        is_single_video url = Raise e ->
        run (Invoke url cookies) w
        = (snd (handle e),
           mkWorld (heap w ++ base_objects (length (heap w)) logger) (calls w)
             (log w ++ [mkEvent INFO "application_started" [];
                        mkEvent (fst (fst (handle e))) (snd (fst (handle e)))
                          [("error", exn_text e)]])))
  /\ (forall cookies,
        fst (@run cpython E (Invoke "https://[youtube.com/watch" cookies) w)
        = 3%Z
        /\ calls (snd (@run cpython E
                         (Invoke "https://[youtube.com/watch" cookies) w))
           = calls w).
Proof.
  assert (forall (U' : UrlLib) url cookies e,
            @is_youtube_url U' url = Raise e ->
            @run U' E (Invoke url cookies) w
            = (snd (handle e),
               mkWorld (heap w) (calls w)
                 (log w ++ [mkEvent INFO "application_started" [];
                            mkEvent (fst (fst (handle e))) (snd (fst (handle e)))
                              [("error", exn_text e)]]))) as Hparse.
  { intros U' url cookies e H.
    unfold run, app, main, bind, lift, log_call. cbn [snd heap calls log].
    rewrite H. destruct (handle e) as [[lv name] code]. cbn.
    by rewrite <- app_assoc. }
  split; [|split; [|split; [|split]]].
  - intros code message. unfold run, app, raise, log_call. cbn.
    by rewrite <- app_assoc.
  - intros url cookies H.
    unfold run, app, main, bind, lift, log_call, raise. cbn [snd heap calls log].
    rewrite H. cbn. by rewrite <- !app_assoc.
  - apply Hparse.
  - intros url cookies e H1 H2. unfold run, app, main.
    set (w0 := snd (log_call INFO "application_started" [] w)).
    rewrite (bind_eval _ _ w0 w0 true) by (unfold lift; by rewrite H1).
    cbn [negb]. erewrite bind_eval by apply get_base_ydl_params_eval.
    unfold bind, lift. rewrite H2.
    destruct (handle e) as [[lv name] code]. subst w0.
    unfold log_call, with_heap. cbn. by rewrite <- app_assoc.
  - intros cookies.
    rewrite (Hparse cpython "https://[youtube.com/watch" cookies
               (ValueError "Invalid IPv6 URL") eq_refl).
    by split.
Qed.

Lemma rejected_runs_witness :
  fst (@run cpython engine_no_metadata
         (Invoke "https://vimeo.com/watch?v=1" EmptyString) initial_world)
  = 3%Z
  /\ calls (snd (@run cpython engine_no_metadata
                   (Invoke "https://vimeo.com/watch?v=1" EmptyString)
                   initial_world))
     = [].
Proof.
  rewrite (proj1 (proj2 (rejected_runs cpython engine_no_metadata initial_world))
             "https://vimeo.com/watch?v=1" EmptyString eq_refl).
  by split.
Defined.

(** ** Runs that reach the engine *)

Lemma run_calls `{U : UrlLib} `{E : Engine} (argv : invocation) (w : world) :
  calls (snd (run argv w)) = calls (snd (app argv (started w))).
Proof.
  unfold run. fold (started w).
  destruct (app argv (started w)) as [[u|e] w']; [done|].
  by destruct (handle e) as [[lv name] code].
Qed.

Lemma run_log `{U : UrlLib} `{E : Engine} (argv : invocation) (w : world) :
  log (snd (run argv w))
  = log (snd (app argv (started w)))
    ++ match fst (app argv (started w)) with
       | Ok _ => []
       | Raise e => [mkEvent (fst (fst (handle e))) (snd (fst (handle e)))
                       [("error", exn_text e)]]
       end.
Proof.
  unfold run. fold (started w).
  destruct (app argv (started w)) as [[u|e] w']; cbn [fst snd].
  - by rewrite app_nil_r.
  - by destruct (handle e) as [[lv name] code].
Qed.

Lemma download_playlist_trace `{E : Engine} (url cookies : string)
    (c : list engine_call) (l : list log_event) :
  let w1 := mkWorld (heap initial_world ++ base_objects 1 logger) c l in
  calls (snd (download_playlist url (VRef 12) cookies w1))
  = c ++ [Download (VRef 13) [url]]
  /\ log (snd (download_playlist url (VRef 12) cookies w1)) = l.
Proof. split; destruct cookies; vm_compute; reflexivity. Qed.

(** X10. From the first run of the process on a platform URL: a single
    video makes the engine asked twice, for the metadata and then for the
    download, a playlist once, for the download only; each time for the
    URL as it was typed, not for its normalized form, and on one and the
    same copy of the parameters. The log is the start event, the event of
    the branch taken, and the handler's event when the download raises;
    the exit code is the one of the download's result. *)
Theorem run_dispatch
    (U : UrlLib) (E : Engine) (url cookies : string) (d : result unit) :
  is_youtube_url url = Ok true ->
  (forall h y us, ydl_download h y us = d) ->
  let after := snd (run (Invoke url cookies) initial_world) in
  let failure :=
    match d with
    | Ok _ => []
    | Raise e => [mkEvent (fst (fst (handle e))) (snd (fst (handle e)))
                    [("error", exn_text e)]]
    end in
  (is_single_video url = Ok true ->
   forall r, (forall h y, ydl_extract_info h y url = Ok r) ->
     exists a,
       calls after = [ExtractInfo (VRef a) url; Download (VRef a) [url]]
       /\ log after
          = [mkEvent INFO "application_started" [];
             mkEvent INFO "downloading_single_video" [("url", url)]]
            ++ failure)
  /\ (is_single_video url = Ok false ->
      exists a,
        calls after = [Download (VRef a) [url]]
        /\ log after
           = [mkEvent INFO "application_started" [];
              mkEvent INFO "downloading_playlist" [("url", url)]]
             ++ failure).
Proof.
  intros Hyt Hd. cbv zeta.
  rewrite run_calls, run_log. cbn [app].
  change (started initial_world)
    with (process_world [] [mkEvent INFO "application_started" []]).
  split.
  - intros Hs r Hr. exists 13. rewrite main_single by done.
    pose proof (download_single_video_eval E url cookies []
                  [mkEvent INFO "application_started" [];
                   mkEvent INFO "downloading_single_video" [("url", url)]]
                  r Hr) as He.
    cbv zeta in He. cbn [Datatypes.app] in He |- *. rewrite He. clear He.
    cbn [fst snd calls log]. rewrite Hd.
    generalize (derive_author (default ∅ r)). intros author.
    split; [destruct cookies; vm_compute; reflexivity|].
    f_equal. destruct cookies; vm_compute; reflexivity.
  - intros Hs. exists 13. rewrite main_playlist by done.
    pose proof (download_playlist_result url cookies []
                  [mkEvent INFO "application_started" [];
                   mkEvent INFO "downloading_playlist" [("url", url)]]) as Hres.
    pose proof (download_playlist_trace url cookies []
                  [mkEvent INFO "application_started" [];
                   mkEvent INFO "downloading_playlist" [("url", url)]])
      as [Hc Hl].
    cbv zeta in Hres, Hc, Hl. cbn [Datatypes.app] in Hres, Hc, Hl |- *.
    rewrite Hres, Hc, Hl, Hd. clear. split; reflexivity.
Qed.

Lemma run_dispatch_witness :
  calls (snd (@run cpython engine_no_metadata
                (Invoke "youtube.com/watch?v=XYZ" EmptyString) initial_world))
  = [ExtractInfo (VRef 13) "youtube.com/watch?v=XYZ";
     Download (VRef 13) ["youtube.com/watch?v=XYZ"]]
  /\ calls (snd (@run cpython engine_no_metadata
                   (Invoke "https://www.youtube.com/playlist?list=ABC"
                      EmptyString) initial_world))
     = [Download (VRef 13) ["https://www.youtube.com/playlist?list=ABC"]].
Proof.
  split.
  - destruct (proj1 (run_dispatch cpython engine_no_metadata
                       "youtube.com/watch?v=XYZ" EmptyString (Ok tt)
                       eq_refl (fun _ _ _ => eq_refl))
                eq_refl None (fun _ _ => eq_refl)) as (a & Hc & _).
    rewrite Hc. vm_compute in Hc. by injection Hc as <-.
  - destruct (proj2 (run_dispatch cpython engine_no_metadata
                       "https://www.youtube.com/playlist?list=ABC" EmptyString
                       (Ok tt) eq_refl (fun _ _ _ => eq_refl))
                eq_refl) as (a & Hc & _).
    rewrite Hc. vm_compute in Hc. by injection Hc as <-.
Defined.

(** ** What the download operations ask of the engine, in any state *)

Lemma silent_ret {A} (a : A) : silent (ret a).
Proof. by intros w. Qed.

Lemma silent_raise {A} (e : exn) : silent (@raise A e).
Proof. by intros w. Qed.

Lemma silent_bind {A B} (m : M A) (k : A -> M B) :
  silent m -> (forall a, silent (k a)) -> silent (bind m k).
Proof.
  intros Hm Hk w. unfold bind. destruct (Hm w) as [Hc Hl].
  destruct (m w) as [[a|e] w1]; cbn [snd] in *.
  - destruct (Hk a w1) as [Hc' Hl']. by rewrite Hc', Hl'.
  - done.
Qed.

Lemma silent_alloc (o : object) : silent (alloc o).
Proof. by intros w. Qed.

Lemma silent_load (x : value) : silent (load x).
Proof.
  intros w. unfold load. destruct x as [| | | |a]; try done.
  by destruct (heap w !! a).
Qed.

Lemma silent_store (a : addr) (o : object) : silent (store a o).
Proof. by intros w. Qed.

Lemma silent_getitem (d : value) (k : string) : silent (getitem d k).
Proof.
  apply silent_bind; [apply silent_load|]. intros [a [items| | |]];
    try apply silent_raise.
  destruct (dict_get k items); [apply silent_ret|apply silent_raise].
Qed.

Lemma silent_setitem (d : value) (k : string) (v : value) :
  silent (setitem d k v).
Proof.
  apply silent_bind; [apply silent_load|]. intros [a [items| | |]];
    try apply silent_raise.
  apply silent_store.
Qed.

Lemma silent_append (l v : value) : silent (append l v).
Proof.
  apply silent_bind; [apply silent_load|]. intros [a [|elems| |]];
    try apply silent_raise.
  apply silent_store.
Qed.

Lemma silent_setattr (x : value) (k : string) (v : value) :
  silent (setattr x k v).
Proof.
  apply silent_bind; [apply silent_load|]. intros [a [| | |cls attrs]];
    try apply silent_raise.
  apply silent_store.
Qed.

Lemma silent_copy_each {K}
    (cp : value -> list (addr * addr) -> M (value * list (addr * addr)))
    (put : K -> value -> M unit) (items : list (K * value)) :
  (forall v memo, silent (cp v memo)) -> (forall k v, silent (put k v)) ->
  forall memo, silent (copy_each cp put items memo).
Proof.
  intros Hcp Hput. induction items as [|[k v] rest IH]; intros memo; simpl.
  - apply silent_ret.
  - apply silent_bind; [apply Hcp|]. intros r.
    apply silent_bind; [apply Hput|]. intros _. apply IH.
Qed.

Lemma silent_deepcopy_rec (fuel : nat) :
  forall x memo, silent (deepcopy_rec fuel x memo).
Proof.
  induction fuel as [|fuel IH]; intros x memo;
    (destruct x as [| | | |a]; simpl; try apply silent_ret);
    (destruct (memo_get a memo) as [y|]; [apply silent_ret|]).
  - apply silent_raise.
  - apply silent_bind; [apply silent_load|]. intros [a' o].
    destruct o as [items|elems|elems|cls attrs]; simpl.
    + apply silent_bind; [apply silent_alloc|]. intros y.
      apply silent_bind; [|intros memo'; apply silent_ret].
      apply silent_copy_each; [done|]. intros k v. apply silent_setitem.
    + apply silent_bind; [apply silent_alloc|]. intros y.
      apply silent_bind; [|intros memo'; apply silent_ret].
      apply silent_copy_each; [done|]. intros k v. apply silent_append.
    + apply silent_bind; [apply silent_alloc|]. intros y. apply silent_ret.
    + apply silent_bind; [apply silent_alloc|]. intros y.
      apply silent_bind; [|intros memo'; apply silent_ret].
      apply silent_copy_each; [done|]. intros k v. apply silent_setattr.
Qed.

Lemma silent_deepcopy (x : value) : silent (deepcopy x).
Proof.
  apply silent_bind; [apply silent_deepcopy_rec|]. intros r. apply silent_ret.
Qed.

Lemma silent_cookiefile (y : value) (cookies : string) :
  silent (if negb (is_empty cookies)
          then setitem y "cookiefile" (VStr cookies)
          else ret tt).
Proof. destruct (negb (is_empty cookies)); [apply silent_setitem|apply silent_ret]. Qed.

Lemma getitem_ref (d : value) (k : string) (v : value) (w w' : world) :
  getitem d k w = (Ok v, w') ->
  exists a items, d = VRef a /\ heap w' !! a = Some (ODict items).
Proof.
  unfold getitem, bind, load, type_error, raise, ret.
  destruct d as [| | | |a]; try done.
  destruct (heap w !! a) as [[items| | |]|] eqn:Ha; try done.
  destruct (dict_get k items); [|done].
  intros [= _ <-]. by exists a, items.
Qed.

Lemma setitem_keeps_dict (d : value) (k : string) (v : value)
    (r : result unit) (w w' : world) (a : addr) (items : list (string * value)) :
  setitem d k v w = (r, w') -> heap w !! a = Some (ODict items) ->
  exists items', heap w' !! a = Some (ODict items').
Proof.
  unfold setitem, bind, load, store, type_error, raise.
  destruct d as [| | | |b]; try (intros [= _ <-]; by eauto).
  destruct (heap w !! b) as [[its| | |]|] eqn:Hb;
    try (intros [= _ <-]; by eauto).
  intros [= _ <-] Ha. cbn [heap with_heap].
  destruct (decide (b = a)) as [->|Hne].
  - rewrite list_lookup_insert_eq by by eapply lookup_lt_Some. eauto.
  - rewrite list_lookup_insert_ne by done. eauto.
Qed.

Lemma cookiefile_keeps_dict (y : value) (cookies : string)
    (r : result unit) (w w' : world) (a : addr) (items : list (string * value)) :
  (if negb (is_empty cookies)
   then setitem y "cookiefile" (VStr cookies)
   else ret tt) w = (r, w') ->
  heap w !! a = Some (ODict items) ->
  exists items', heap w' !! a = Some (ODict items').
Proof.
  destruct (negb (is_empty cookies)); [apply setitem_keeps_dict|].
  unfold ret. intros [= _ <-]. eauto.
Qed.

Ltac stops_here :=
  cbn [fst snd]; split; [congruence|left; split; [congruence|eauto]].

(** X11. In any state and on any parameter value, [download_playlist]
    writes nothing to the log, never asks the engine for metadata, and
    either fails before the engine is asked anything, or asks for one
    download, of the one URL given, on a dictionary of the store, and ends
    as that download ends: returning when it returns, raising its
    exception unchanged when it raises. *)
Theorem download_playlist_discipline
    (E : Engine) (url cookies : string) (params : value) (w : world) :
  let out := download_playlist url params cookies w in
  log (snd out) = log w
  /\ ((calls (snd out) = calls w /\ exists e, fst out = Raise e)
      \/ (exists a,
            calls (snd out) = calls w ++ [Download (VRef a) [url]]
            /\ fst out = ydl_download (heap (snd out)) (VRef a) [url]
            /\ exists items, heap (snd out) !! a = Some (ODict items))).
Proof.
  cbv zeta. unfold download_playlist, bind.
  destruct (silent_deepcopy params w) as [Hc1 Hl1].
  destruct (deepcopy params w) as [[y|e] w1]; cbn [snd] in Hc1, Hl1;
    [|stops_here].
  destruct (silent_getitem y "outtmpl" w1) as [Hc2 Hl2].
  destruct (getitem y "outtmpl" w1) as [[t|e] w2] eqn:Hget;
    cbn [snd] in Hc2, Hl2; [|stops_here].
  destruct (getitem_ref _ _ _ _ _ Hget) as (a & items & -> & Ha).
  destruct (silent_setitem t "default" (VStr output_template_playlist) w2)
    as [Hc3 Hl3].
  destruct (setitem t "default" (VStr output_template_playlist) w2)
    as [[u|e] w3] eqn:Hset; cbn [snd] in Hc3, Hl3; [|stops_here].
  destruct (setitem_keeps_dict _ _ _ _ _ _ _ _ Hset Ha) as [items3 Ha3].
  destruct (silent_cookiefile (VRef a) cookies w3) as [Hc4 Hl4].
  destruct ((if negb (is_empty cookies)
             then setitem (VRef a) "cookiefile" (VStr cookies)
             else ret tt) w3) as [[u'|e] w4] eqn:Hck; cbn [snd] in Hc4, Hl4;
    [|stops_here].
  destruct (cookiefile_keeps_dict _ _ _ _ _ _ _ Hck Ha3) as [items4 Ha4].
  unfold download. cbn [fst snd calls log heap].
  split; [congruence|]. right. exists a.
  split; [congruence|]. split; [done|]. eauto.
Qed.

(** X12. In any state and on any parameter value, [download_single_video]
    writes nothing to the log and asks the engine for nothing but the URL
    given: it fails before the engine is asked anything, or fails after
    the metadata request alone, or asks for the metadata and then for one
    download on the same dictionary of the store. The download is asked
    only after the metadata request has returned, and the operation then
    ends as the download ends. *)
Theorem download_single_video_discipline
    (E : Engine) (url cookies : string) (params : value) (w : world) :
  let out := download_single_video url params cookies w in
  log (snd out) = log w
  /\ ((calls (snd out) = calls w /\ exists e, fst out = Raise e)
      \/ (exists y,
            calls (snd out) = calls w ++ [ExtractInfo y url]
            /\ exists e, fst out = Raise e)
      \/ (exists a,
            calls (snd out)
            = calls w ++ [ExtractInfo (VRef a) url; Download (VRef a) [url]]
            /\ fst out = ydl_download (heap (snd out)) (VRef a) [url]
            /\ (exists h r, ydl_extract_info h (VRef a) url = Ok r)
            /\ exists items, heap (snd out) !! a = Some (ODict items))).
Proof.
  cbv zeta. unfold download_single_video, bind.
  destruct (silent_deepcopy params w) as [Hc1 Hl1].
  destruct (deepcopy params w) as [[y|e] w1]; cbn [snd] in Hc1, Hl1;
    [|stops_here].
  destruct (silent_cookiefile y cookies w1) as [Hc2 Hl2].
  destruct ((if negb (is_empty cookies)
             then setitem y "cookiefile" (VStr cookies)
             else ret tt) w1) as [[u|e] w2]; cbn [snd] in Hc2, Hl2;
    [|stops_here].
  unfold extract_info.
  destruct (ydl_extract_info (heap w2) y url) as [r|e] eqn:Hinfo;
    [|cbn [fst snd calls log]; split; [congruence|];
      right; left; exists y; split; [congruence|eauto]].
  set (w3 := mkWorld (heap w2) (calls w2 ++ [ExtractInfo y url]) (log w2)).
  assert (calls w3 = calls w ++ [ExtractInfo y url]) as Hc3
    by (unfold w3; cbn [calls]; congruence).
  assert (log w3 = log w) as Hl3 by (unfold w3; cbn [log]; congruence).
  clearbody w3.
  destruct (silent_getitem y "outtmpl" w3) as [Hc4 Hl4].
  destruct (getitem y "outtmpl" w3) as [[t|e] w4] eqn:Hget;
    cbn [snd] in Hc4, Hl4;
    [|cbn [fst snd]; split; [congruence|];
      right; left; exists y; split; [congruence|eauto]].
  destruct (getitem_ref _ _ _ _ _ Hget) as (a & items & -> & Ha).
  set (template := VStr (derive_author (default ∅ r) +:+ " - %(title)s.%(ext)s")).
  destruct (silent_setitem t "default" template w4) as [Hc5 Hl5].
  destruct (setitem t "default" template w4) as [[u'|e] w5] eqn:Hset;
    cbn [snd] in Hc5, Hl5;
    [|cbn [fst snd]; split; [congruence|];
      right; left; exists (VRef a); split; [congruence|eauto]].
  destruct (setitem_keeps_dict _ _ _ _ _ _ _ _ Hset Ha) as [items5 Ha5].
  unfold download. cbn [fst snd calls log heap].
  split; [congruence|]. right. right. exists a.
  split; [rewrite Hc5, Hc4, Hc3; by rewrite <- app_assoc|].
  split; [done|]. split; eauto.
Qed.

(** ** Two requests on one base configuration *)

(** X13. Two requests served one after the other from the same base
    configuration, a single video with a cookie file and then a playlist
    without one: the engine is asked on two different copies, neither of
    them the base; the first copy keeps its author template and its cookie
    file, the second has the playlist template and no cookie file; the
    base still has the empty template and no cookie file. *)
Theorem sequential_requests
    (E : Engine) (url1 url2 cookies : string)
    (r : option (gmap string (option string))) :
  cookies <> EmptyString ->
  (forall h y, ydl_extract_info h y url1 = Ok r) ->
  (forall h y, ydl_download h y [url1] = Ok tt) ->
  exists (b a1 a2 : addr) (w1 : world),
    get_base_ydl_params logger (process_world [] []) = (Ok (VRef b), w1)
    /\ a1 <> a2 /\ a1 <> b /\ a2 <> b
    /\ let w2 := snd ((download_single_video url1 (VRef b) cookies ;;
                       download_playlist url2 (VRef b) EmptyString) w1) in
       calls w2 = [ExtractInfo (VRef a1) url1; Download (VRef a1) [url1];
                   Download (VRef a2) [url2]]
       /\ template_of (VRef a1) w2
          = (Ok (VStr (derive_author (default ∅ r) +:+ " - %(title)s.%(ext)s")),
             w2)
       /\ template_of (VRef a2) w2 = (Ok (VStr output_template_playlist), w2)
       /\ template_of (VRef b) w2 = (Ok (VStr EmptyString), w2)
       /\ getitem (VRef a1) "cookiefile" w2 = (Ok (VStr cookies), w2)
       /\ fst (getitem (VRef a2) "cookiefile" w2)
          = Raise (OtherException "KeyError" "cookiefile")
       /\ fst (getitem (VRef b) "cookiefile" w2)
          = Raise (OtherException "KeyError" "cookiefile").
Proof.
  intros Hne Hr Hd. exists 12, 13, 26. eexists.
  split; [apply process_base_eval|].
  split; [lia|]. split; [lia|]. split; [lia|]. cbv zeta.
  pose proof (download_single_video_eval E url1 cookies [] [] r Hr) as He.
  cbv zeta in He. rewrite Hd in He.
  erewrite bind_eval by exact He. clear He.
  generalize (derive_author (default ∅ r)). intros author.
  destruct cookies as [|ch cookies]; [congruence|].
  split; [vm_compute; reflexivity|].
  split; [vm_compute; reflexivity|].
  split; [vm_compute; reflexivity|].
  split; [vm_compute; reflexivity|].
  split; [vm_compute; reflexivity|].
  split; vm_compute; reflexivity.
Qed.

Lemma sequential_requests_witness :
  exists (a1 a2 : addr),
    calls (snd ((@download_single_video engine_channel_at "youtu.be/abc"
                   (VRef 12) "cookies.txt" ;;
                 @download_playlist engine_channel_at
                   "youtube.com/playlist?list=L" (VRef 12) EmptyString)
                  (mkWorld (heap initial_world ++ base_objects 1 logger) [] [])))
    = [ExtractInfo (VRef a1) "youtu.be/abc";
       Download (VRef a1) ["youtu.be/abc"];
       Download (VRef a2) ["youtube.com/playlist?list=L"]].
Proof.
  destruct (sequential_requests engine_channel_at "youtu.be/abc"
              "youtube.com/playlist?list=L" "cookies.txt"
              (Some {[ "channel" := Some "@" ]}))
    as (b & a1 & a2 & w1 & Hb & _ & _ & _ & Hc & _);
    [done|reflexivity|reflexivity|].
  rewrite process_base_eval in Hb. injection Hb as <- <-.
  by exists a1, a2.
Defined.

(** ** The session a run opens *)

Lemma run_heap `{U : UrlLib} `{E : Engine} (argv : invocation) (w : world) :
  heap (snd (run argv w)) = heap (snd (app argv (started w))).
Proof.
  unfold run. fold (started w).
  destruct (app argv (started w)) as [[u|e] w']; [done|].
  by destruct (handle e) as [[lv name] code].
Qed.

(** X14. The session of a run: in the first run of the process on a
    platform URL that is classified, the dictionary the download is asked
    on carries the output template of the branch taken (the author
    template of the metadata for a single video, the playlist template
    otherwise), the cookie file exactly when the [--cookies] text is not
    empty, and under [logger] an adapter bound to a structlog logger. *)
Theorem run_session
    (U : UrlLib) (E : Engine) (url cookies : string) (single : bool)
    (r : option (gmap string (option string))) :
  is_youtube_url url = Ok true ->
  is_single_video url = Ok single ->
  (single = true -> forall h y, ydl_extract_info h y url = Ok r) ->
  let after := snd (run (Invoke url cookies) initial_world) in
  exists a t l g : addr,
    In (Download (VRef a) [url]) (calls after)
    /\ item (heap after) (VRef a) "outtmpl" = Ok (VRef t)
    /\ item (heap after) (VRef t) "default"
       = Ok (VStr (if single
                   then derive_author (default ∅ r) +:+ " - %(title)s.%(ext)s"
                   else output_template_playlist))
    /\ item (heap after) (VRef a) "cookiefile"
       = (if is_empty cookies
          then Raise (OtherException "KeyError" "cookiefile")
          else Ok (VStr cookies))
    /\ item (heap after) (VRef a) "logger" = Ok (VRef l)
    /\ heap after !! l
       = Some (OInstance "YtDlpStructlogAdapter" [("logger", VRef g)])
    /\ heap after !! g = Some (OInstance "BoundLoggerLazyProxy" []).
Proof.
  intros Hyt Hs Hr. cbv zeta. rewrite run_heap, run_calls. cbn [app].
  change (started initial_world)
    with (process_world [] [mkEvent INFO "application_started" []]).
  destruct single.
  - rewrite main_single by done.
    pose proof (download_single_video_eval E url cookies []
                  [mkEvent INFO "application_started" [];
                   mkEvent INFO "downloading_single_video" [("url", url)]]
                  r (Hr eq_refl)) as He.
    cbv zeta in He. cbn [Datatypes.app] in He |- *. rewrite He. clear He.
    cbn [fst snd calls heap].
    generalize (derive_author (default ∅ r)). intros author.
    exists 13, 15, 24, 25.
    split.
    { destruct cookies; vm_compute; right; left; reflexivity. }
    split; [destruct cookies; vm_compute; reflexivity|].
    split; [destruct cookies; vm_compute; reflexivity|].
    split; [destruct cookies; vm_compute; reflexivity|].
    split; [destruct cookies; vm_compute; reflexivity|].
    split; destruct cookies; vm_compute; reflexivity.
  - rewrite main_playlist by done. cbn [Datatypes.app].
    exists 13, 15, 24, 25.
    split.
    { destruct cookies; vm_compute; left; reflexivity. }
    split; [destruct cookies; vm_compute; reflexivity|].
    split; [destruct cookies; vm_compute; reflexivity|].
    split; [destruct cookies; vm_compute; reflexivity|].
    split; [destruct cookies; vm_compute; reflexivity|].
    split; destruct cookies; vm_compute; reflexivity.
Qed.

Lemma run_session_witness :
  exists a : addr,
    item (heap (snd (@run cpython engine_channel_at
                       (Invoke "https://www.youtube.com/playlist?list=ABC"
                          "cookies.txt") initial_world)))
      (VRef a) "cookiefile"
    = Ok (VStr "cookies.txt").
Proof.
  destruct (run_session cpython engine_channel_at
              "https://www.youtube.com/playlist?list=ABC" "cookies.txt"
              false None eq_refl eq_refl)
    as (a & t & l & g & _ & _ & _ & Hc & _); [discriminate|].
  by exists a.
Defined.
